(** * claude_code_run.py: mode selection, argument building and tmux driving

    A shallow embedding of
    [clawdbot-integration/skills/claude-code-clawdbot/scripts/claude_code_run.py].

    Conventions of the model.
    - A Python [str] is a [string]; each [ascii] stands for the code point of
      the same number, so the strings covered are those over code points
      0..255.  The line-boundary and white-space tables of [str.splitlines]
      and [str.strip] are the ones of CPython, cut to that range.
    - [Optional[str]] is [option string]; [if x:] on such a value is [truthy].
    - Python [int] is [Z].  Wall-clock time and sleep lengths are counted in
      whole milliseconds, so [time.sleep(0.5)] is a sleep of 500; a sleep
      takes exactly its length and the clock is read to the millisecond.
    - The outside world (child processes, file system, environment) is a
      [Host] record of answers; the program threads a [World] (clock and
      event trace) through an exception-aware state monad. *)

From Stdlib Require Import String Ascii List ZArith NArith Lia Bool DecimalString.
Import ListNotations.

Local Open Scope string_scope.
Local Open Scope list_scope.
Local Open Scope Z_scope.

Notation "s +++ t" := (String.append s t) (at level 60, right associativity).

(** ** Python string primitives used by the script *)

Module PyStr.

Definition chr (n : nat) : string := String (ascii_of_nat n) EmptyString.

(** The double quote and the newline, named to keep literals readable. *)
Definition dquote : string := chr 34.
Definition newline : string := chr 10.

Definition code_in (c : ascii) (l : list nat) : bool :=
  existsb (Nat.eqb (nat_of_ascii c)) l.

(** Line boundaries of [str.splitlines]: LF, VT, FF, CR, FS, GS, RS, NEL. *)
Definition is_linebreak (c : ascii) : bool :=
  code_in c [10; 11; 12; 13; 28; 29; 30; 133]%nat.

(** [str.isspace] per character: TAB..CR, FS..US, space, NEL, NBSP. *)
Definition isspace (c : ascii) : bool :=
  code_in c [9; 10; 11; 12; 13; 28; 29; 30; 31; 32; 133; 160]%nat.

Definition is_cr (c : ascii) : bool := Nat.eqb (nat_of_ascii c) 13.
Definition is_lf (c : ascii) : bool := Nat.eqb (nat_of_ascii c) 10.

(** [s.splitlines()]: scan left to right, [cur] is the line being read.
    A CR immediately followed by LF is one boundary; no empty last line. *)
Fixpoint splitlines_from (cur s : string) : list string :=
  match s with
  | EmptyString => match cur with EmptyString => [] | _ => [cur] end
  | String c rest =>
      if is_linebreak c then
        match rest with
        | String d rest' =>
            if is_cr c && is_lf d then cur :: splitlines_from "" rest'
            else cur :: splitlines_from "" rest
        | EmptyString => cur :: splitlines_from "" rest
        end
      else splitlines_from (cur +++ String c "") rest
  end.

Definition splitlines (s : string) : list string := splitlines_from "" s.

(** [s.lstrip()] *)
Fixpoint lstrip (s : string) : string :=
  match s with
  | EmptyString => ""
  | String c rest => if isspace c then lstrip rest else s
  end.

(** [s.rstrip()] *)
Fixpoint rstrip (s : string) : string :=
  match s with
  | EmptyString => ""
  | String c rest =>
      match rstrip rest with
      | EmptyString => if isspace c then "" else String c ""
      | r => String c r
      end
  end.

(** [s.strip()] *)
Definition strip (s : string) : string := rstrip (lstrip s).

(** [s.startswith(p)] *)
Fixpoint startswith (s p : string) {struct p} : bool :=
  match p with
  | EmptyString => true
  | String a p' =>
      match s with
      | EmptyString => false
      | String b s' => Ascii.eqb a b && startswith s' p'
      end
  end.

(** [bool(s)] for a [str] *)
Definition nonempty (s : string) : bool :=
  match s with EmptyString => false | _ => true end.

(** [sep.join(parts)] *)
Definition join (sep : string) (parts : list string) : string :=
  String.concat sep parts.

(** [s.replace(old, new)] for a one-character [old]. *)
Fixpoint replace_char (old : ascii) (new s : string) : string :=
  match s with
  | EmptyString => ""
  | String c rest =>
      if Ascii.eqb c old then new +++ replace_char old new rest
      else String c (replace_char old new rest)
  end.

Fixpoint forall_chars (p : ascii -> bool) (s : string) : bool :=
  match s with
  | EmptyString => true
  | String c rest => p c && forall_chars p rest
  end.

(** [needle in s] *)
Fixpoint contains (needle s : string) : bool :=
  startswith s needle ||
  match s with
  | EmptyString => false
  | String _ rest => contains needle rest
  end.

(** [str(n)] for an [int] *)
Definition of_int (n : Z) : string := NilZero.string_of_int (Z.to_int n).

End PyStr.

(** ** [shlex.quote] *)

Module Shlex.
Import PyStr.

Definition between (lo hi : nat) (c : ascii) : bool :=
  (Nat.leb lo (nat_of_ascii c) && Nat.leb (nat_of_ascii c) hi)%bool.

(** The complement of [[^\w@%+=:,./-]] under [re.ASCII]. *)
Definition is_safe (c : ascii) : bool :=
  between 97 122 c || between 65 90 c || between 48 57 c
  || code_in c [95; 64; 37; 43; 61; 58; 44; 46; 47; 45]%nat.

Definition squote : string := "'".

(** [shlex.quote(s)] *)
Definition quote (s : string) : string :=
  if negb (nonempty s) then "''"
  else if forall_chars is_safe s then s
  else squote +++ replace_char "'"%char (squote +++ dquote +++ squote +++ dquote +++ squote) s +++ squote.

End Shlex.

(** ** The parsed command line ([argparse.Namespace]) *)

Inductive Mode := Auto | Headless | Interactive.

Definition mode_eqb (a b : Mode) : bool :=
  match a, b with
  | Auto, Auto | Headless, Headless | Interactive, Interactive => true
  | _, _ => false
  end.

Record Namespace := {
  prompt : option string;
  mode : Mode;
  permission_mode : option string;
  allowed_tools : option string;
  output_format : option string;
  json_schema : option string;
  append_system_prompt : option string;
  system_prompt : option string;
  continue_latest : bool;
  resume : option string;
  claude_bin : string;
  cwd : option string;
  tmux_session : string;
  tmux_socket_dir : option string;
  tmux_socket_name : string;
  interactive_wait_s : Z;
  interactive_send_delay_ms : Z;
  extra : list string
}.

(** The namespace [parse_args] yields when only [--claude-bin] is resolved:
    every [add_argument] default of [main]. *)
Definition parse_defaults (bin : string) : Namespace := {|
  prompt := None;
  mode := Auto;
  permission_mode := None;
  allowed_tools := None;
  output_format := None;
  json_schema := None;
  append_system_prompt := None;
  system_prompt := None;
  continue_latest := false;
  resume := None;
  claude_bin := bin;
  cwd := None;
  tmux_session := "cc";
  tmux_socket_dir := None;
  tmux_socket_name := "claude-code.sock";
  interactive_wait_s := 0;
  interactive_send_delay_ms := 800;
  extra := []
|}.

(** [if x:] for [x : Optional[str]] *)
Definition truthy (x : option string) : bool :=
  match x with
  | Some s => PyStr.nonempty s
  | None => false
  end.

(** [x or y] for [Optional[str]] operands, [y] a [str] *)
Definition or_else (x : option string) (y : string) : string :=
  match x with
  | Some s => if PyStr.nonempty s then s else y
  | None => y
  end.

(** ** [looks_like_slash_commands] *)

Definition looks_like_slash_commands (p : option string) : bool :=
  match p with
  | None => false
  | Some s =>
      if negb (PyStr.nonempty s) then false
      else existsb (fun line => PyStr.startswith (PyStr.lstrip line) "/")
                   (PyStr.splitlines s)
  end.

(** ** [build_cmd] *)

(** [if v: cmd += [flag, v]] *)
Definition add_opt (flag : string) (v : option string) (cmd : list string) : list string :=
  match v with
  | Some s => if PyStr.nonempty s then cmd ++ [flag; s] else cmd
  | None => cmd
  end.

Definition build_cmd (args : Namespace) : list string :=
  let cmd := [claude_bin args] in
  let cmd := add_opt "--permission-mode" (permission_mode args) cmd in
  let cmd := add_opt "--allowedTools" (allowed_tools args) cmd in
  let cmd := add_opt "--output-format" (output_format args) cmd in
  let cmd := add_opt "--json-schema" (json_schema args) cmd in
  let cmd := add_opt "--append-system-prompt" (append_system_prompt args) cmd in
  let cmd := add_opt "--system-prompt" (system_prompt args) cmd in
  let cmd := if continue_latest args then cmd ++ ["--continue"] else cmd in
  let cmd := add_opt "--resume" (resume args) cmd in
  let cmd := match prompt args with
             | Some p => cmd ++ ["-p"; p]
             | None => cmd
             end in
  let cmd := match extra args with
             | [] => cmd
             | _ => cmd ++ extra args
             end in
  cmd.

(** The mode held by [mode] in [main] once the heuristic has run
    (lines 220-222); [main] takes the tmux path exactly when it is
    [Interactive] and the headless path otherwise. *)
Definition resolve_mode (args : Namespace) : Mode :=
  if mode_eqb (mode args) Auto && looks_like_slash_commands (prompt args)
  then Interactive
  else mode args.

Definition selects_interactive (args : Namespace) : bool :=
  mode_eqb (resolve_mode args) Interactive.

(** ** The outside world and the effect monad *)

Inductive Exn :=
| CalledProcessError (code : Z) (cmd : list string)
| OSError (what : string)
| ValueError (what : string)
| OverflowError (what : string).

(** What the program does to the outside world, oldest event first. *)
Inductive Event :=
| Spawn (argv : list string) (dir : option string)
| Stdout (text : string)
| Stderr (text : string)
| Sleep (ms : Z)
| Mkdir (path : string).

(** A finished child process ([subprocess.CompletedProcess]) and the wall
    time it took. *)
Record Completed := {
  returncode : Z;
  output : string;
  elapsed : N
}.

(** The answers of the platform.  [child] may depend on everything the
    program did before, so a pane can change between two captures. *)
Record Host := {
  os_name : string;
  which : string -> option string;
  path_exists : string -> bool;
  path_join : string -> string -> string;
  getenv : string -> option string;
  getcwd : string;
  child : list Event -> list string -> option string -> Completed;
  mkdir_succeeds : list Event -> string -> bool
}.

Record World := {
  clock : Z;
  trace : list Event
}.

Inductive Result (A : Type) :=
| Ok (a : A)
| Raise (e : Exn).

Arguments Ok {A} a.
Arguments Raise {A} e.

Definition M (A : Type) : Type := World -> Result A * World.

Definition ret {A} (a : A) : M A := fun w => (Ok a, w).

Definition bind {A B} (c : M A) (k : A -> M B) : M B :=
  fun w =>
    match c w with
    | (Ok a, w') => k a w'
    | (Raise e, w') => (Raise e, w')
    end.

Definition raise {A} (e : Exn) : M A := fun w => (Raise e, w).

(** [try: body  except subprocess.CalledProcessError: handler] *)
Definition except_called {A} (body handler : M A) : M A :=
  fun w =>
    match body w with
    | (Raise (CalledProcessError _ _), w') => handler w'
    | r => r
    end.

Declare Scope py_scope.
Delimit Scope py_scope with py.
Notation "x <- c ;; k" := (bind c (fun x => k))
  (at level 100, c at next level, right associativity) : py_scope.
Notation "c ;; k" := (bind c (fun _ => k))
  (at level 100, right associativity) : py_scope.
Local Open Scope py_scope.

Definition emit (e : Event) (dt : Z) : M unit :=
  fun w => (Ok tt, {| clock := clock w + dt; trace := trace w ++ [e] |}).

(** [for x in xs: body(x)] *)
Fixpoint for_each {A} (xs : list A) (body : A -> M unit) : M unit :=
  match xs with
  | [] => ret tt
  | x :: rest => body x ;; for_each rest body
  end.

(** [time.time()], in milliseconds *)
Definition time_time : M Z := fun w => (Ok (clock w), w).

(** The longest sleep CPython can take in, in milliseconds: the length is
    first converted to a signed 64-bit count of nanoseconds, so its size
    must stay below 2^63 ns. *)
Definition sleep_limit_ms : Z := 9223372036854.

Definition sleep_overflows (ms : Z) : bool :=
  (ms <? - sleep_limit_ms) || (sleep_limit_ms <? ms).

(** [time.sleep], the length in milliseconds; CPython converts the length
    first, raising [OverflowError] when it does not fit, and then rejects a
    negative length with [ValueError]. *)
Definition time_sleep (ms : Z) : M unit :=
  if sleep_overflows ms
  then raise (OverflowError "timestamp too large to convert to C _PyTime_t")
  else if ms <? 0 then raise (ValueError "sleep length must be non-negative")
       else emit (Sleep ms) ms.

Definition print (text : string) : M unit := emit (Stdout text) 0.
Definition print_stderr (text : string) : M unit := emit (Stderr text) 0.

Section Script.

Variable H : Host.

(** [subprocess.run(argv, cwd=dir)]: spawn, wait, hand back the result. *)
Definition subprocess_run (argv : list string) (dir : option string) : M Completed :=
  fun w =>
    let r := child H (trace w) argv dir in
    (Ok r, {| clock := clock w + Z.of_N (elapsed r);
              trace := trace w ++ [Spawn argv dir] |}).

(** [subprocess.check_call(argv)] *)
Definition check_call (argv : list string) : M unit :=
  r <- subprocess_run argv None ;;
  if returncode r =? 0 then ret tt
  else raise (CalledProcessError (returncode r) argv).

(** [subprocess.check_output(argv, text=True)] *)
Definition check_output (argv : list string) : M string :=
  r <- subprocess_run argv None ;;
  if returncode r =? 0 then ret (output r)
  else raise (CalledProcessError (returncode r) argv).

(** [Path(p).mkdir(parents=True, exist_ok=True)] *)
Definition path_mkdir (p : string) : M unit :=
  fun w =>
    if mkdir_succeeds H (trace w) p
    then (Ok tt, {| clock := clock w; trace := trace w ++ [Mkdir p] |})
    else (Raise (OSError p), w).

(** *** [run_headless] *)

Definition run_headless (cmd : list string) (dir : option string) : M Z :=
  if String.eqb (os_name H) "nt" then
    r <- subprocess_run cmd dir ;; ret (returncode r)
  else
    match which H "script" with
    | Some script_bin =>
        if PyStr.nonempty script_bin then
          let cmd_str := PyStr.join " " (map Shlex.quote cmd) in
          r <- subprocess_run [script_bin; "-q"; "-c"; cmd_str; "/dev/null"] dir ;;
          ret (returncode r)
        else
          r <- subprocess_run cmd dir ;; ret (returncode r)
    | None =>
        r <- subprocess_run cmd dir ;; ret (returncode r)
    end.

(** *** [tmux], [tmux_capture], [tmux_wait_for] *)

Definition tmux (socket_path : string) (argv : list string) : list string :=
  "tmux" :: "-S" :: socket_path :: argv.

Definition capture_argv (socket_path target : string) (lines : Z) : list string :=
  tmux socket_path
    ["capture-pane"; "-p"; "-J"; "-t"; target; "-S"; "-" +++ PyStr.of_int lines].

Definition tmux_capture (socket_path target : string) (lines : Z) : M string :=
  check_output (capture_argv socket_path target lines).

(** One pass of the [try] block of the polling loop: [true] stands for
    [return True], [false] for falling through to the sleep. *)
Definition poll_once (socket_path target needle : string) : M bool :=
  except_called
    (text <- tmux_capture socket_path target 200 ;;
     ret (PyStr.contains needle text))
    (ret false).

(** The [while time.time() < deadline] loop.  Each test of the loop
    condition spends one unit of [fuel]; [None] means the fuel ran out
    before the loop was left. *)
Fixpoint wait_loop (fuel : nat) (socket_path target needle : string)
         (deadline : Z) : M (option bool) :=
  match fuel with
  | O => ret None
  | S fuel' =>
      now <- time_time ;;
      if now <? deadline then
        found <- poll_once socket_path target needle ;;
        if found then ret (Some true)
        else time_sleep 500 ;;
             wait_loop fuel' socket_path target needle deadline
      else ret (Some false)
  end.

(** Every pass that does not return sleeps 500 ms, so the condition is
    tested at most [2 * timeout_s + 1] times. *)
Definition poll_budget (timeout_s : Z) : nat := S (Z.to_nat (2 * timeout_s)).

Definition tmux_wait_for (socket_path target needle : string) (timeout_s : Z) : M bool :=
  now <- time_time ;;
  let deadline := now + 1000 * timeout_s in
  r <- wait_loop (poll_budget timeout_s) socket_path target needle deadline ;;
  match r with
  | Some b => ret b
  | None => ret false
  end.

(** *** [run_interactive] *)

(** Lines 119-123: explicit value, else the environment's directory, else
    a directory under [TMPDIR] (or [/tmp]). *)
Definition socket_dir_of (args : Namespace) : string :=
  or_else (tmux_socket_dir args)
    (or_else (getenv H "CLAWDBOT_TMUX_SOCKET_DIR")
       (match getenv H "TMPDIR" with
        | Some d => d
        | None => "/tmp"
        end +++ "/clawdbot-tmux-sockets")).

(** Lines 135-149: the list [base]. *)
Definition interactive_base (args : Namespace) : list string :=
  let base := [claude_bin args] in
  let base := add_opt "--permission-mode" (permission_mode args) base in
  let base := add_opt "--allowedTools" (allowed_tools args) base in
  let base := add_opt "--append-system-prompt" (append_system_prompt args) base in
  let base := add_opt "--system-prompt" (system_prompt args) base in
  let base := if continue_latest args then base ++ ["--continue"] else base in
  let base := add_opt "--resume" (resume args) base in
  let base := match extra args with
              | [] => base
              | _ => base ++ extra args
              end in
  base.

(** Line 151: the launch line typed into the pane. *)
Definition launch_line (args : Namespace) : string :=
  "cd " +++ Shlex.quote (or_else (cwd args) (getcwd H)) +++ " && "
  +++ PyStr.join " " (map Shlex.quote (interactive_base args)).

(** [tmux(socket_path, "send-keys", "-t", target, "-l", "--", text)] *)
Definition literal_keys (socket_path target text : string) : list string :=
  tmux socket_path ["send-keys"; "-t"; target; "-l"; "--"; text].

(** [tmux(socket_path, "send-keys", "-t", target, "Enter")] *)
Definition enter_key (socket_path target : string) : list string :=
  tmux socket_path ["send-keys"; "-t"; target; "Enter"].

(** The list comprehension of line 161. *)
Definition nonblank_lines (p : string) : list string :=
  filter (fun ln => PyStr.nonempty (PyStr.strip ln)) (PyStr.splitlines p).

(** Lines 162-164: the body of the [for] loop. *)
Definition send_line (socket_path target : string) (delay_ms : Z) (line : string) : M unit :=
  check_call (literal_keys socket_path target line) ;;
  check_call (enter_key socket_path target) ;;
  time_sleep delay_ms.

(** Lines 160-164. *)
Definition send_prompt (args : Namespace) (socket_path target : string) : M unit :=
  if truthy (prompt args) then
    match prompt args with
    | Some p =>
        for_each (nonblank_lines p)
                 (send_line socket_path target (interactive_send_delay_ms args))
    | None => ret tt
    end
  else ret tt.

(** Lines 155-158. *)
Definition acknowledge_trust (socket_path target : string) : M unit :=
  found <- tmux_wait_for socket_path target "trust this folder" 20 ;;
  if found then
    subprocess_run (enter_key socket_path target) None ;;
    time_sleep 1000
  else ret tt.

(** Lines 166-168. *)
Definition print_hints (socket_path session target : string) : M unit :=
  print "Started interactive Claude Code in tmux" ;;
  print ("Monitor:  tmux -S " +++ Shlex.quote socket_path +++ " attach -t "
         +++ Shlex.quote session) ;;
  print ("Snapshot: tmux -S " +++ Shlex.quote socket_path
         +++ " capture-pane -p -J -t " +++ Shlex.quote target +++ " -S -200").

(** Lines 170-176. *)
Definition final_snapshot (args : Namespace) (socket_path target : string) : M unit :=
  if 0 <? interactive_wait_s args then
    time_sleep (1000 * interactive_wait_s args) ;;
    except_called
      (print (PyStr.newline +++ "--- tmux snapshot (last 200 lines) ---" +++ PyStr.newline) ;;
       text <- tmux_capture socket_path target 200 ;;
       print text)
      (ret tt)
  else ret tt.

(** Lines 119-178: what [run_interactive] does once both platform checks
    have passed. *)
Definition drive_session (args : Namespace) : M Z :=
  let socket_dir := socket_dir_of args in
  path_mkdir socket_dir ;;
  let socket_path := path_join H socket_dir (tmux_socket_name args) in
  let session := tmux_session args in
  let target := session +++ ":0.0" in
  subprocess_run (tmux socket_path ["kill-session"; "-t"; session]) None ;;
  check_call (tmux socket_path ["new-session"; "-d"; "-s"; session; "-n"; "shell"]) ;;
  check_call (literal_keys socket_path target (launch_line args)) ;;
  check_call (enter_key socket_path target) ;;
  acknowledge_trust socket_path target ;;
  send_prompt args socket_path target ;;
  print_hints socket_path session target ;;
  final_snapshot args socket_path target ;;
  ret 0.

Definition run_interactive (args : Namespace) : M Z :=
  if String.eqb (os_name H) "nt" then
    print_stderr "interactive tmux mode is not supported on Windows" ;;
    ret 2
  else if negb (truthy (which H "tmux")) then
    print_stderr "tmux not found in PATH" ;;
    ret 2
  else drive_session args.

(** *** [main], from the parsed namespace on (lines 211-227) *)

Definition set_extra (args : Namespace) (e : list string) : Namespace := {|
  prompt := prompt args;
  mode := mode args;
  permission_mode := permission_mode args;
  allowed_tools := allowed_tools args;
  output_format := output_format args;
  json_schema := json_schema args;
  append_system_prompt := append_system_prompt args;
  system_prompt := system_prompt args;
  continue_latest := continue_latest args;
  resume := resume args;
  claude_bin := claude_bin args;
  cwd := cwd args;
  tmux_session := tmux_session args;
  tmux_socket_dir := tmux_socket_dir args;
  tmux_socket_name := tmux_socket_name args;
  interactive_wait_s := interactive_wait_s args;
  interactive_send_delay_ms := interactive_send_delay_ms args;
  extra := e
|}.

(** Lines 211-213: a leading [--] of the pass-through list is dropped. *)
Definition strip_separator (e : list string) : list string :=
  match e with
  | first :: rest => if String.eqb first "--" then rest else e
  | [] => e
  end.

Definition main (parsed : Namespace) : M Z :=
  let args := set_extra parsed (strip_separator (extra parsed)) in
  if negb (path_exists H (claude_bin args)) && negb (truthy (which H (claude_bin args))) then
    print_stderr ("claude binary not found: " +++ claude_bin args) ;;
    ret 2
  else if selects_interactive args then run_interactive args
  else run_headless (build_cmd args) (cwd args).

End Script.

(** * Vocabulary of the statements *)

(** A line that begins with [/] once its leading white space is dropped. *)
Definition slash_after_blanks (line : string) : Prop :=
  exists ws rest,
    line = ws +++ "/" +++ rest /\ PyStr.forall_chars PyStr.isspace ws = true.

(** The prompt announces slash commands: it is there, it is not empty and
    one of its lines begins with [/] after leading white space. *)
Definition has_slash_line (p : option string) : Prop :=
  exists s, p = Some s /\ s <> "" /\
            exists line, In line (PyStr.splitlines s) /\ slash_after_blanks line.

(** The words one optional string field contributes to a command line. *)
Definition opt_group (flag : string) (v : option string) : list string :=
  match v with
  | Some s => if PyStr.nonempty s then [flag; s] else []
  | None => []
  end.

Definition continue_group (b : bool) : list string :=
  if b then ["--continue"] else [].

Definition prompt_group (p : option string) : list string :=
  match p with
  | Some s => ["-p"; s]
  | None => []
  end.

(** The words in front of the resume slot, and those behind it. *)
Definition before_resume (args : Namespace) : list string :=
  [claude_bin args]
  ++ opt_group "--permission-mode" (permission_mode args)
  ++ opt_group "--allowedTools" (allowed_tools args)
  ++ opt_group "--output-format" (output_format args)
  ++ opt_group "--json-schema" (json_schema args)
  ++ opt_group "--append-system-prompt" (append_system_prompt args)
  ++ opt_group "--system-prompt" (system_prompt args)
  ++ continue_group (continue_latest args).

Definition after_resume (args : Namespace) : list string :=
  prompt_group (prompt args) ++ extra args.

(** [a] immediately followed by [b] somewhere in [l]. *)
Definition has_pair (a b : string) (l : list string) : Prop :=
  exists pre post, l = pre ++ a :: b :: post.

(** Every word of a configuration that is not written by the builder
    itself: the executable, the field values and the pass-through list. *)
Definition opt_words (v : option string) : list string :=
  match v with
  | Some s => [s]
  | None => []
  end.

Definition user_words (args : Namespace) : list string :=
  claude_bin args
  :: opt_words (permission_mode args) ++ opt_words (allowed_tools args)
  ++ opt_words (output_format args) ++ opt_words (json_schema args)
  ++ opt_words (append_system_prompt args) ++ opt_words (system_prompt args)
  ++ opt_words (resume args) ++ opt_words (prompt args) ++ extra args.

(** A resume token handed over as pass-through arguments only. *)
Definition resume_passed_through : Namespace :=
  set_extra (parse_defaults "claude") ["--resume"; "abc"].

(** A resume token given through the field. *)
Definition resume_by_field : Namespace := {|
  prompt := Some "summarize";
  mode := Auto;
  permission_mode := Some "plan";
  allowed_tools := None;
  output_format := Some "json";
  json_schema := None;
  append_system_prompt := None;
  system_prompt := None;
  continue_latest := true;
  resume := Some "abc";
  claude_bin := "claude";
  cwd := None;
  tmux_session := "cc";
  tmux_socket_dir := None;
  tmux_socket_name := "claude-code.sock";
  interactive_wait_s := 0;
  interactive_send_delay_ms := 800;
  extra := ["--verbose"]
|}.

(** The defaults of the parser with a prompt and a mode filled in. *)
Definition sample (p : option string) (m : Mode) : Namespace := {|
  prompt := p;
  mode := m;
  permission_mode := None;
  allowed_tools := None;
  output_format := None;
  json_schema := None;
  append_system_prompt := None;
  system_prompt := None;
  continue_latest := false;
  resume := None;
  claude_bin := "claude";
  cwd := None;
  tmux_session := "cc";
  tmux_socket_dir := None;
  tmux_socket_name := "claude-code.sock";
  interactive_wait_s := 0;
  interactive_send_delay_ms := 800;
  extra := []
|}.

(** [Some ""] read as [None]. *)
Definition blank_to_none (v : option string) : option string :=
  if truthy v then v else None.

(** The configuration with every empty string field but the prompt unset. *)
Definition drop_blanks (args : Namespace) : Namespace := {|
  prompt := prompt args;
  mode := mode args;
  permission_mode := blank_to_none (permission_mode args);
  allowed_tools := blank_to_none (allowed_tools args);
  output_format := blank_to_none (output_format args);
  json_schema := blank_to_none (json_schema args);
  append_system_prompt := blank_to_none (append_system_prompt args);
  system_prompt := blank_to_none (system_prompt args);
  continue_latest := continue_latest args;
  resume := blank_to_none (resume args);
  claude_bin := claude_bin args;
  cwd := cwd args;
  tmux_session := tmux_session args;
  tmux_socket_dir := tmux_socket_dir args;
  tmux_socket_name := tmux_socket_name args;
  interactive_wait_s := interactive_wait_s args;
  interactive_send_delay_ms := interactive_send_delay_ms args;
  extra := extra args
|}.

(** Every string field set to the empty string. *)
Definition all_blank : Namespace := {|
  prompt := Some "";
  mode := Auto;
  permission_mode := Some "";
  allowed_tools := Some "";
  output_format := Some "";
  json_schema := Some "";
  append_system_prompt := Some "";
  system_prompt := Some "";
  continue_latest := false;
  resume := Some "";
  claude_bin := "claude";
  cwd := None;
  tmux_session := "cc";
  tmux_socket_dir := None;
  tmux_socket_name := "claude-code.sock";
  interactive_wait_s := 0;
  interactive_send_delay_ms := 800;
  extra := []
|}.

(** The world once [argv] has been spawned in [dir] and waited for. *)
Definition after_spawn (H : Host) (w : World) (argv : list string) (dir : option string) : World :=
  {| clock := clock w + Z.of_N (elapsed (child H (trace w) argv dir));
     trace := trace w ++ [Spawn argv dir] |}.

(** The world once [text] has been written to the error stream. *)
Definition after_stderr (w : World) (text : string) : World :=
  {| clock := clock w + 0; trace := trace w ++ [Stderr text] |}.

(** The headless runner goes through the pseudo-terminal allocator. *)
Definition wraps_in_script (H : Host) : bool :=
  negb (String.eqb (os_name H) "nt") && truthy (which H "script").

(** The one command the headless runner spawns for [cmd]. *)
Definition headless_argv (H : Host) (cmd : list string) : list string :=
  match which H "script" with
  | Some script_bin =>
      if wraps_in_script H
      then [script_bin; "-q"; "-c"; PyStr.join " " (map Shlex.quote cmd); "/dev/null"]
      else cmd
  | None => cmd
  end.

(** The wrapper the headless runner builds around [cmd] for the allocator
    [script_bin] (lines 83-84). *)
Definition script_argv (script_bin : string) (cmd : list string) : list string :=
  [script_bin; "-q"; "-c"; PyStr.join " " (map Shlex.quote cmd); "/dev/null"].

(** The allocator as util-linux ships it: called without [-e] it exits
    with 0 whatever the command it ran exited with. *)
Definition script_exits_zero (H : Host) : Prop :=
  forall tr script_bin line dir,
    which H "script" = Some script_bin ->
    returncode (child H tr [script_bin; "-q"; "-c"; line; "/dev/null"] dir) = 0.

(** The executable of the configuration is on disk or on the search path. *)
Definition target_resolves (H : Host) (args : Namespace) : bool :=
  path_exists H (claude_bin args) || truthy (which H (claude_bin args)).

(** Sample platforms.  [lookup] is a search path given as a table. *)
Fixpoint lookup (table : list (string * string)) (name : string) : option string :=
  match table with
  | [] => None
  | (n, p) :: rest => if String.eqb n name then Some p else lookup rest name
  end.

(** A child that exits with [code], prints [text] and takes [ms]. *)
Definition exits (code : Z) (text : string) (ms : N) : Completed :=
  {| returncode := code; output := text; elapsed := ms |}.

(** A POSIX machine with the given search path on which every child exits
    with [code]. *)
Definition posix_host (path : list (string * string)) (code : Z) : Host := {|
  os_name := "posix";
  which := lookup path;
  path_exists := fun _ => false;
  path_join := fun a b => a +++ "/" +++ b;
  getenv := fun _ => None;
  getcwd := "/work";
  child := fun _ _ _ => exits code "" 10;
  mkdir_succeeds := fun _ _ => true
|}.

(** A Windows machine. *)
Definition windows_host (path : list (string * string)) (code : Z) : Host := {|
  os_name := "nt";
  which := lookup path;
  path_exists := fun _ => false;
  path_join := fun a b => a +++ "/" +++ b;
  getenv := fun _ => None;
  getcwd := "C:/work";
  child := fun _ _ _ => exits code "" 10;
  mkdir_succeeds := fun _ _ => true
|}.

Definition full_path : list (string * string) :=
  [("claude", "/usr/bin/claude"); ("tmux", "/usr/bin/tmux"); ("script", "/usr/bin/script")].

Definition fresh : World := {| clock := 0; trace := [] |}.

(** A POSIX machine with such an allocator on which every other program,
    the target included, exits with 7. *)
Definition script_host : Host := {|
  os_name := "posix";
  which := lookup full_path;
  path_exists := fun _ => false;
  path_join := fun a b => a +++ "/" +++ b;
  getenv := fun _ => None;
  getcwd := "/work";
  child := fun _ argv _ =>
             match argv with
             | program :: _ =>
                 if String.eqb program "/usr/bin/script" then exits 0 "" 10
                 else exits 7 "" 10
             | [] => exits 7 "" 10
             end;
  mkdir_succeeds := fun _ _ => true
|}.

(** The world once the program has slept [ms] milliseconds. *)
Definition after_sleep (w : World) (ms : Z) : World :=
  {| clock := clock w + ms; trace := trace w ++ [Sleep ms] |}.

(** One pass of the poller that finds nothing: the capture of the last 200
    lines, then the half-second sleep. *)
Definition idle_round (socket_path target : string) : list Event :=
  [Spawn (capture_argv socket_path target 200) None; Sleep 500].

Fixpoint idle_rounds (n : nat) (socket_path target : string) : list Event :=
  match n with
  | O => []
  | S k => idle_round socket_path target ++ idle_rounds k socket_path target
  end.

(** What the capture answers when the program's history is [tr]. *)
Definition capture_at (H : Host) (tr : list Event) (socket_path target : string) : Completed :=
  child H tr (capture_argv socket_path target 200) None.

(** The capture made at history [tr] succeeds and shows the needle. *)
Definition capture_shows (H : Host) (tr : list Event) (socket_path target needle : string) : bool :=
  (returncode (capture_at H tr socket_path target) =? 0)
  && PyStr.contains needle (output (capture_at H tr socket_path target)).

(** The events of a poll that ends with [b]. *)
Definition poll_events (n : nat) (b : bool) (socket_path target : string) : list Event :=
  idle_rounds n socket_path target
  ++ (if b then [Spawn (capture_argv socket_path target 200) None] else []).

(** A pane that shows the trust question from the third capture on and
    whose first capture fails: the answer depends on how many events the
    program has produced so far. *)
Definition slow_pane_host : Host := {|
  os_name := "posix";
  which := lookup full_path;
  path_exists := fun _ => false;
  path_join := fun a b => a +++ "/" +++ b;
  getenv := fun _ => None;
  getcwd := "/work";
  child := fun tr _ _ =>
             match tr with
             | [] => exits 1 "" 10
             | [_] | [_; _] | [_; _; _] => exits 0 "starting" 10
             | _ => exits 0 "Do you trust this folder?" 10
             end;
  mkdir_succeeds := fun _ _ => true
|}.

(** What the pane receives for one prompt line: the text, the submit key,
    the pause. *)
Definition paced_line (socket_path target : string) (delay_ms : Z) (line : string) : list Event :=
  [Spawn (literal_keys socket_path target line) None;
   Spawn (enter_key socket_path target) None;
   Sleep delay_ms].

Definition paced_lines (socket_path target : string) (delay_ms : Z) (lines : list string) : list Event :=
  flat_map (paced_line socket_path target delay_ms) lines.


(** A three-line prompt with a blank line in between. *)
Definition three_lines : string :=
  "/init" +++ PyStr.newline +++ "   " +++ PyStr.newline +++ "do thing"
  +++ PyStr.newline +++ "/status".

(** A prompt of three lines sent with a pause of 100 ms. *)
Definition paced_args : Namespace := {|
  prompt := Some three_lines;
  mode := Auto;
  permission_mode := Some "plan";
  allowed_tools := None;
  output_format := Some "json";
  json_schema := Some "{}";
  append_system_prompt := None;
  system_prompt := None;
  continue_latest := false;
  resume := None;
  claude_bin := "claude";
  cwd := Some "/srv/my repo";
  tmux_session := "cc";
  tmux_socket_dir := Some "/run/socks";
  tmux_socket_name := "claude-code.sock";
  interactive_wait_s := 1;
  interactive_send_delay_ms := 100;
  extra := ["--verbose"]
|}.

(** Every event [c] adds to the trace satisfies [P]; [c] removes none. *)
Definition appends {A} (P : Event -> Prop) (c : M A) : Prop :=
  forall w, exists evs, trace (snd (c w)) = trace w ++ evs /\ Forall P evs.




(** The socket path and the pane address of a run (lines 125-128). *)
Definition socket_path_of (H : Host) (args : Namespace) : string :=
  path_join H (socket_dir_of H args) (tmux_socket_name args).

Definition target_of (args : Namespace) : string := tmux_session args +++ ":0.0".

Definition kill_session_argv (H : Host) (args : Namespace) : list string :=
  tmux (socket_path_of H args) ["kill-session"; "-t"; tmux_session args].

Definition new_session_argv (H : Host) (args : Namespace) : list string :=
  tmux (socket_path_of H args) ["new-session"; "-d"; "-s"; tmux_session args; "-n"; "shell"].

(** The first three events of a run that gets as far as its session. *)
Definition session_setup (H : Host) (args : Namespace) : list Event :=
  [Mkdir (socket_dir_of H args);
   Spawn (kill_session_argv H args) None;
   Spawn (new_session_argv H args) None].

(** An event that leaves the session alone: output, a pause, or a child
    that is a key injection into the pane or a capture of the pane. *)
Definition pane_traffic (socket_path target : string) (e : Event) : Prop :=
  match e with
  | Spawn argv dir =>
      dir = None
      /\ (argv = capture_argv socket_path target 200
          \/ argv = enter_key socket_path target
          \/ exists text, argv = literal_keys socket_path target text)
  | Mkdir _ => False
  | Stdout _ | Stderr _ | Sleep _ => True
  end.

(** The configuration with other headless-only fields and another prompt. *)
Definition retarget (args : Namespace) (fmt schema p : option string) : Namespace := {|
  prompt := p;
  mode := mode args;
  permission_mode := permission_mode args;
  allowed_tools := allowed_tools args;
  output_format := fmt;
  json_schema := schema;
  append_system_prompt := append_system_prompt args;
  system_prompt := system_prompt args;
  continue_latest := continue_latest args;
  resume := resume args;
  claude_bin := claude_bin args;
  cwd := cwd args;
  tmux_session := tmux_session args;
  tmux_socket_dir := tmux_socket_dir args;
  tmux_socket_name := tmux_socket_name args;
  interactive_wait_s := interactive_wait_s args;
  interactive_send_delay_ms := interactive_send_delay_ms args;
  extra := extra args
|}.

(** A machine on which tmux only knows [new-session] and [send-keys]:
    killing the old session and every capture fail. *)
Definition tmux_verb (argv : list string) : string := nth 3 argv "".

Definition picky_host : Host := {|
  os_name := "posix";
  which := lookup full_path;
  path_exists := fun _ => false;
  path_join := fun a b => a +++ "/" +++ b;
  getenv := fun _ => None;
  getcwd := "/work";
  child := fun _ argv _ =>
             if String.eqb (tmux_verb argv) "new-session"
                || String.eqb (tmux_verb argv) "send-keys"
             then exits 0 "" 10
             else exits 1 "" 10;
  mkdir_succeeds := fun _ _ => true
|}.

(** ** Further parts of the script *)

(** [default_claude_bin] (lines 29-36): the environment's override, else the
    [claude] of the search path, else a fixed location. *)
Definition default_claude_bin (H : Host) : string :=
  or_else (getenv H "CLAUDE_CODE_BIN")
    (or_else (which H "claude") "/home/ubuntu/.local/bin/claude").


(** A left-to-right reading of a prompt: [fresh] tells that only white
    space has been read since the last line boundary (or the start). *)
Fixpoint slash_scan (fresh : bool) (s : string) : bool :=
  match s with
  | EmptyString => false
  | String c rest =>
      if Ascii.eqb c "/" then fresh || slash_scan false rest
      else if PyStr.is_linebreak c then slash_scan true rest
      else if PyStr.isspace c then slash_scan fresh rest
      else slash_scan false rest
  end.

(** The line under construction already begins with [/] after its leading
    white space. *)
Definition slash_led (cur : string) : bool :=
  PyStr.startswith (PyStr.lstrip cur) "/".

(** No line boundary character. *)
Definition unbroken (c : ascii) : bool := negb (PyStr.is_linebreak c).

(** Some [/] of [s] is preceded by white space only back to the start of
    the text or to a line boundary (which is white space itself). *)
Definition slash_at_line_start (s : string) : Prop :=
  exists pre ws post,
    s = pre +++ ws +++ "/" +++ post
    /\ PyStr.forall_chars PyStr.isspace ws = true
    /\ (pre = "" \/ exists b ws', ws = String b ws' /\ PyStr.is_linebreak b = true).

(** What follows a poll for the trust question that ended with [b]
    (lines 156-158). *)
Definition trust_reply (b : bool) (socket_path target : string) : list Event :=
  if b then [Spawn (enter_key socket_path target) None; Sleep 1000] else [].





(** A machine on which no child ever succeeds. *)
Definition broken_tmux_host : Host := posix_host full_path 1.

(** A machine on which the socket directory cannot be made. *)
Definition readonly_host : Host := {|
  os_name := "posix";
  which := lookup full_path;
  path_exists := fun _ => false;
  path_join := fun a b => a +++ "/" +++ b;
  getenv := fun _ => None;
  getcwd := "/work";
  child := fun _ _ _ => exits 0 "" 10;
  mkdir_succeeds := fun _ _ => false
|}.


(** Continuation and resume token given together. *)
Definition continue_and_resume : Namespace := {|
  prompt := Some "go on";
  mode := Headless;
  permission_mode := None;
  allowed_tools := None;
  output_format := None;
  json_schema := None;
  append_system_prompt := None;
  system_prompt := None;
  continue_latest := true;
  resume := Some "abc";
  claude_bin := "claude";
  cwd := Some "/srv/repo";
  tmux_session := "cc";
  tmux_socket_dir := None;
  tmux_socket_name := "claude-code.sock";
  interactive_wait_s := 0;
  interactive_send_delay_ms := 800;
  extra := ["--"; "--"; "--verbose"]
|}.

(** An environment that only sets [TMPDIR], to the empty string. *)
Definition empty_tmpdir_host : Host := {|
  os_name := "posix";
  which := lookup full_path;
  path_exists := fun _ => false;
  path_join := fun a b => a +++ "/" +++ b;
  getenv := fun name => if String.eqb name "TMPDIR" then Some "" else None;
  getcwd := "/work";
  child := fun _ _ _ => exits 0 "" 10;
  mkdir_succeeds := fun _ _ => true
|}.

(** * Properties *)

(** ** Strings *)

Lemma lstrip_blanks (ws rest : string) :
  PyStr.forall_chars PyStr.isspace ws = true ->
  PyStr.lstrip (ws +++ "/" +++ rest) = "/" +++ rest.
Proof.
  induction ws as [|c ws IH]; simpl; intros Hws.
  - reflexivity.
  - apply andb_true_iff in Hws as [Hc Hws]. rewrite Hc. now apply IH.
Qed.

Lemma lstrip_split (line : string) :
  exists ws, line = ws +++ PyStr.lstrip line
             /\ PyStr.forall_chars PyStr.isspace ws = true.
Proof.
  induction line as [|c line [ws [Heq Hws]]]; simpl.
  - now exists "".
  - destruct (PyStr.isspace c) eqn:Hc.
    + exists (String c ws). simpl. rewrite Hc, Hws. split; [now f_equal | reflexivity].
    + now exists "".
Qed.

Lemma startswith_slash (s : string) :
  PyStr.startswith s "/" = true <-> exists rest, s = "/" +++ rest.
Proof.
  split.
  - destruct s as [|c s]; cbn [PyStr.startswith]; [discriminate|].
    destruct (Ascii.eqb_spec "/" c) as [<-|]; [|discriminate].
    intros _. now exists s.
  - intros [rest ->]. reflexivity.
Qed.

Lemma slash_line_iff (line : string) :
  PyStr.startswith (PyStr.lstrip line) "/" = true <-> slash_after_blanks line.
Proof.
  rewrite startswith_slash. split.
  - intros [rest Hrest]. destruct (lstrip_split line) as [ws [Heq Hws]].
    exists ws, rest. rewrite <- Hrest. now split.
  - intros [ws [rest [-> Hws]]]. exists rest. now apply lstrip_blanks.
Qed.

Lemma nonempty_iff (s : string) : PyStr.nonempty s = true <-> s <> "".
Proof. destruct s; simpl; split; congruence. Qed.

Lemma looks_like_slash_commands_iff (p : option string) :
  looks_like_slash_commands p = true <-> has_slash_line p.
Proof.
  unfold looks_like_slash_commands, has_slash_line. destruct p as [s|].
  - destruct (PyStr.nonempty s) eqn:Hne; simpl.
    + rewrite existsb_exists. split.
      * intros [line [Hin Hl]]. exists s. repeat split; [now apply nonempty_iff|].
        exists line. split; [exact Hin | now apply slash_line_iff].
      * intros [s' [[= <-] [_ [line [Hin Hl]]]]]. exists line.
        split; [exact Hin | now apply slash_line_iff].
    + split; [discriminate|]. intros [s' [[= <-] [Hs _]]].
      apply nonempty_iff in Hs. congruence.
  - split; [discriminate|]. now intros [s [? _]].
Qed.

(** [main] with the field reads of the normalised namespace resolved. *)
Lemma main_dispatch (H : Host) (args : Namespace) (w : World) :
  main H args w
  = if negb (path_exists H (claude_bin args)) && negb (truthy (which H (claude_bin args)))
    then (Ok 2, after_stderr w ("claude binary not found: " +++ claude_bin args))
    else if selects_interactive args
         then run_interactive H (set_extra args (strip_separator (extra args))) w
         else run_headless H (build_cmd (set_extra args (strip_separator (extra args))))
                           (cwd args) w.
Proof.
  unfold main. cbv zeta.
  change (claude_bin (set_extra args (strip_separator (extra args)))) with (claude_bin args).
  change (selects_interactive (set_extra args (strip_separator (extra args))))
    with (selects_interactive args).
  change (cwd (set_extra args (strip_separator (extra args)))) with (cwd args).
  destruct (negb (path_exists H (claude_bin args)) && negb (truthy (which H (claude_bin args))));
    [reflexivity|].
  now destruct (selects_interactive args).
Qed.

(** ** C1: the mode heuristic *)

(** C1.  The interactive mode is selected exactly when the mode is
    [interactive], or the mode is [auto] and the prompt is present,
    non-empty and has a line that begins with [/] after its leading white
    space; the headless mode is selected exactly when the mode is
    [headless], or it is [auto] and the prompt has no such line (absent and
    empty prompts included).  An explicit mode is kept whatever the prompt
    says.  [main], once the executable resolves, enters [run_interactive]
    when the interactive mode is selected and [run_headless] otherwise. *)
Theorem mode_selection (args : Namespace) :
  (selects_interactive args = true <->
     mode args = Interactive \/ (mode args = Auto /\ has_slash_line (prompt args)))
  /\ (selects_interactive args = false <->
        mode args = Headless \/ (mode args = Auto /\ ~ has_slash_line (prompt args)))
  /\ (mode args <> Auto -> resolve_mode args = mode args)
  /\ (forall H w,
        target_resolves H args = true ->
        main H args w
        = if selects_interactive args
          then run_interactive H (set_extra args (strip_separator (extra args))) w
          else run_headless H (build_cmd (set_extra args (strip_separator (extra args))))
                            (cwd args) w).
Proof.
  assert (Hsel : (selects_interactive args = true <->
                    mode args = Interactive
                    \/ (mode args = Auto /\ has_slash_line (prompt args)))
                 /\ (selects_interactive args = false <->
                       mode args = Headless
                       \/ (mode args = Auto /\ ~ has_slash_line (prompt args)))
                 /\ (mode args <> Auto -> resolve_mode args = mode args)).
  { unfold selects_interactive, resolve_mode.
    pose proof (looks_like_slash_commands_iff (prompt args)) as Hiff.
    destruct (mode args), (looks_like_slash_commands (prompt args)); simpl;
      intuition (discriminate || congruence). }
  destruct Hsel as [Hyes [Hno Hexplicit]].
  split; [exact Hyes|]. split; [exact Hno|]. split; [exact Hexplicit|].
  intros H w Hres. rewrite main_dispatch. unfold target_resolves in Hres.
  destruct (path_exists H (claude_bin args)), (truthy (which H (claude_bin args)));
    try discriminate Hres; reflexivity.
Qed.

Lemma mode_selection_witness :
  resolve_mode (sample (Some "/init") Headless) = Headless
  /\ main (posix_host full_path 0) (sample (Some "/init") Auto) fresh
     = run_interactive (posix_host full_path 0) (sample (Some "/init") Auto) fresh.
Proof.
  split.
  - apply (proj1 (proj2 (proj2 (mode_selection (sample (Some "/init") Headless))))).
    discriminate.
  - apply (proj2 (proj2 (proj2 (mode_selection (sample (Some "/init") Auto))))
             (posix_host full_path 0) fresh).
    reflexivity.
Defined.

(** The four prompts the specification lists for the mode heuristic. *)
Example slash_prompt_is_interactive :
  selects_interactive (sample (Some ("/init" +++ PyStr.newline +++ "do thing")) Auto) = true.
Proof. reflexivity. Qed.

Example plain_prompt_is_headless :
  selects_interactive (sample (Some "do thing") Auto) = false.
Proof. reflexivity. Qed.

Example empty_prompt_is_headless :
  selects_interactive (sample (Some "") Auto) = false.
Proof. reflexivity. Qed.

Example absent_prompt_is_headless :
  selects_interactive (sample None Auto) = false.
Proof. reflexivity. Qed.

(** ** The argument builder *)

Lemma add_opt_group (flag : string) (v : option string) (cmd : list string) :
  add_opt flag v cmd = cmd ++ opt_group flag v.
Proof.
  unfold add_opt, opt_group. destruct v as [s|]; [destruct (PyStr.nonempty s)|];
    now rewrite ?app_nil_r.
Qed.

Lemma build_cmd_groups (args : Namespace) :
  build_cmd args
  = before_resume args ++ opt_group "--resume" (resume args) ++ after_resume args.
Proof.
  unfold build_cmd, before_resume, after_resume, continue_group, prompt_group.
  rewrite !add_opt_group.
  destruct (continue_latest args), (prompt args), (extra args);
    rewrite ?app_nil_r, <- ?app_assoc; reflexivity.
Qed.

Lemma in_opt_group (x flag : string) (v : option string) :
  In x (opt_group flag v) -> x = flag \/ In x (opt_words v).
Proof.
  unfold opt_group, opt_words. destruct v as [s|]; [destruct (PyStr.nonempty s)|];
    simpl; intuition.
Qed.

Lemma resume_not_before (args : Namespace) :
  ~ In "--resume" (user_words args) -> ~ In "--resume" (before_resume args).
Proof.
  unfold user_words, before_resume, continue_group. intros Hno Hin. apply Hno.
  simpl in Hin. rewrite !in_app_iff in Hin. simpl. rewrite !in_app_iff.
  destruct Hin as [Hin|Hin]; [now left|]. right.
  repeat (destruct Hin as [Hin|Hin];
          [apply in_opt_group in Hin as [Hin|Hin]; [discriminate Hin | tauto]|]).
  destruct (continue_latest args); simpl in Hin; [|contradiction].
  destruct Hin as [Hin|[]]. discriminate Hin.
Qed.

Lemma resume_not_after (args : Namespace) :
  ~ In "--resume" (user_words args) -> ~ In "--resume" (after_resume args).
Proof.
  unfold user_words, after_resume, prompt_group. intros Hno Hin. apply Hno.
  simpl. rewrite !in_app_iff. rewrite in_app_iff in Hin. right.
  destruct Hin as [Hin|Hin]; [|tauto].
  destruct (prompt args); simpl in *; [|contradiction].
  destruct Hin as [Hin|[Hin|[]]]; [discriminate Hin|]. tauto.
Qed.

Lemma pair_first_in (a b : string) (l : list string) : has_pair a b l -> In a l.
Proof. intros [pre [post ->]]. apply in_elt. Qed.

(** A pair that starts with [a] inside [l1 ++ [a; v] ++ l2], where [a]
    occurs nowhere else, is the pair [a; v]. *)
Lemma pair_in_slot (a v b : string) (l1 l2 : list string) :
  ~ In a l1 -> ~ In a l2 -> v <> a ->
  has_pair a b (l1 ++ [a; v] ++ l2) -> b = v.
Proof.
  intros H1 H2 Hv [pre [post Heq]]. revert pre Heq.
  induction l1 as [|x l1 IH]; intros pre Heq.
  - destruct pre as [|y pre]; simpl in Heq.
    + now injection Heq as <-.
    + injection Heq as <- Heq. exfalso.
      destruct pre as [|z pre]; simpl in Heq; injection Heq as Hz Heq.
      * now apply Hv.
      * apply H2. rewrite Heq. apply in_elt.
  - destruct pre as [|y pre]; simpl in Heq; injection Heq as Hx Heq.
    + exfalso. apply H1. now left.
    + apply (IH (fun Hin => H1 (or_intror Hin)) pre Heq).
Qed.

Lemma resume_group_iff (v : option string) (X : string) :
  opt_group "--resume" v = ["--resume"; X] <-> v = Some X /\ X <> "".
Proof.
  unfold opt_group. destruct v as [s|].
  - destruct s as [|c s]; simpl; split.
    + discriminate.
    + intros [[= <-] Hne]. congruence.
    + intros [= <-]. split; [reflexivity | discriminate].
    + now intros [[= <-] _].
  - split; [discriminate | now intros [? _]].
Qed.

(** ** C2: layout of the argument vector *)

(** C2, read literally for the resume flag: the vector holds [--resume X]
    exactly when the resume field is the non-empty [X].  It fails for a
    token handed over as pass-through arguments: the vector then holds
    [--resume abc] while the resume field is unset. *)
Lemma resume_pair_from_passthrough :
  ~ (has_pair "--resume" "abc" (build_cmd resume_passed_through)
     <-> resume resume_passed_through = Some "abc" /\ "abc" <> "").
Proof.
  intros [Hto _]. destruct Hto as [Heq _].
  - exists ["claude"], []. reflexivity.
  - discriminate Heq.
Qed.

Example build_cmd_passthrough :
  build_cmd resume_passed_through = ["claude"; "--resume"; "abc"]
  /\ resume resume_passed_through = None.
Proof. split; reflexivity. Qed.

(** C2, amended.  The vector is the executable path followed by the groups
    of permission-mode, tool-allow-list, output-format, schema,
    system-prompt-append, system-prompt-replace, continuation, resume,
    prompt and pass-through arguments, in this order; an unset field
    contributes no word.  The resume group is [--resume X] exactly when the
    resume field is the non-empty [X]; then the vector holds that pair, and
    a pair [--resume X] in the vector comes from the resume field whenever
    no executable path, field value or pass-through argument is itself the
    word [--resume]. *)
Theorem build_cmd_layout (args : Namespace) :
  build_cmd args
  = [claude_bin args]
    ++ opt_group "--permission-mode" (permission_mode args)
    ++ opt_group "--allowedTools" (allowed_tools args)
    ++ opt_group "--output-format" (output_format args)
    ++ opt_group "--json-schema" (json_schema args)
    ++ opt_group "--append-system-prompt" (append_system_prompt args)
    ++ opt_group "--system-prompt" (system_prompt args)
    ++ continue_group (continue_latest args)
    ++ opt_group "--resume" (resume args)
    ++ prompt_group (prompt args)
    ++ extra args
  /\ (forall flag, opt_group flag None = [])
  /\ continue_group false = []
  /\ prompt_group None = []
  /\ (forall X, opt_group "--resume" (resume args) = ["--resume"; X]
                <-> resume args = Some X /\ X <> "")
  /\ (forall X, resume args = Some X -> X <> "" ->
                has_pair "--resume" X (build_cmd args))
  /\ (forall X, ~ In "--resume" (user_words args) ->
                has_pair "--resume" X (build_cmd args) ->
                resume args = Some X /\ X <> "").
Proof.
  pose proof (build_cmd_groups args) as Hg.
  split; [|split; [|split; [|split; [|split; [|split]]]]]; try reflexivity.
  - rewrite Hg. unfold before_resume, after_resume.
    now rewrite <- !app_assoc.
  - intros X. apply resume_group_iff.
  - intros X HX Hne. rewrite Hg.
    assert (Hgr : opt_group "--resume" (resume args) = ["--resume"; X])
      by now apply resume_group_iff.
    rewrite Hgr. exists (before_resume args), (after_resume args). reflexivity.
  - intros X Hno Hpair. rewrite Hg in Hpair.
    pose proof (resume_not_before args Hno) as Hb.
    pose proof (resume_not_after args Hno) as Ha.
    destruct (resume args) as [v|] eqn:Hr; [destruct v as [|c v]|].
    + apply pair_first_in in Hpair. cbn [opt_group PyStr.nonempty] in Hpair.
      rewrite app_nil_l in Hpair.
      apply in_app_or in Hpair as [Hin|Hin]; contradiction.
    + assert (Hv : String c v <> "--resume").
      { intros Heq. apply Hno. unfold user_words. rewrite Hr, Heq.
        simpl. rewrite !in_app_iff. simpl. tauto. }
      change (opt_group "--resume" (Some (String c v)))
        with ["--resume"; String c v] in Hpair.
      apply (pair_in_slot _ _ _ _ _ Hb Ha Hv) in Hpair. subst X.
      split; [reflexivity | discriminate].
    + apply pair_first_in in Hpair. cbn [opt_group PyStr.nonempty] in Hpair.
      rewrite app_nil_l in Hpair.
      apply in_app_or in Hpair as [Hin|Hin]; contradiction.
Qed.

Lemma build_cmd_layout_witness :
  has_pair "--resume" "abc" (build_cmd resume_by_field)
  /\ (resume resume_by_field = Some "abc" /\ "abc" <> "").
Proof.
  pose proof (build_cmd_layout resume_by_field) as [_ [_ [_ [_ [_ [Hfwd Hbwd]]]]]].
  assert (Hp : has_pair "--resume" "abc" (build_cmd resume_by_field)).
  { apply Hfwd; [reflexivity | discriminate]. }
  split; [exact Hp|].
  apply Hbwd; [|exact Hp].
  simpl. intros Hin.
  repeat (destruct Hin as [Hin|Hin]; [discriminate Hin|]). exact Hin.
Defined.

(** The headless scenario of the specification: prompt [summarize] with output
    format [json]. *)
Example build_cmd_scenario :
  build_cmd resume_by_field
  = ["claude"; "--permission-mode"; "plan"; "--output-format"; "json";
     "--continue"; "--resume"; "abc"; "-p"; "summarize"; "--verbose"].
Proof. reflexivity. Qed.

(** ** C10: an empty prompt is still a prompt *)

Lemma opt_group_blank (flag : string) (v : option string) :
  opt_group flag (blank_to_none v) = opt_group flag v.
Proof. now destruct v as [[|c s]|]. Qed.

(** C10.  With the prompt set to the empty string the vector carries the
    pair [-p], [""] right in front of the pass-through arguments, whereas an
    empty string in any other string field is dropped like an unset field;
    so the command the headless path runs holds an explicit empty prompt. *)
Theorem empty_prompt_is_passed (args : Namespace) :
  prompt args = Some "" ->
  build_cmd args
  = before_resume args ++ opt_group "--resume" (resume args) ++ ["-p"; ""] ++ extra args
  /\ has_pair "-p" "" (build_cmd args)
  /\ build_cmd (drop_blanks args) = build_cmd args
  /\ (forall flag, opt_group flag (Some "") = opt_group flag None)
  /\ (mode args <> Interactive ->
      forall H w,
        path_exists H (claude_bin args) || truthy (which H (claude_bin args)) = true ->
        let args' := set_extra args (strip_separator (extra args)) in
        main H args w = run_headless H (build_cmd args') (cwd args) w
        /\ has_pair "-p" "" (build_cmd args')).
Proof.
  intros Hp. pose proof (build_cmd_groups args) as Hg.
  unfold after_resume in Hg. rewrite Hp in Hg. simpl prompt_group in Hg.
  split; [exact Hg|]. split; [|split; [|split]].
  - rewrite Hg. exists (before_resume args ++ opt_group "--resume" (resume args)), (extra args).
    now rewrite <- app_assoc.
  - rewrite !build_cmd_groups. unfold before_resume, after_resume, drop_blanks; simpl.
    now rewrite !opt_group_blank.
  - reflexivity.
  - intros Hm H w Hres args'. split.
    + rewrite main_dispatch. fold args'.
      assert (Hsel : selects_interactive args = false).
      { unfold selects_interactive, resolve_mode. rewrite Hp. simpl.
        rewrite andb_false_r. destruct (mode args); simpl; congruence. }
      rewrite Hsel.
      destruct (path_exists H (claude_bin args)), (truthy (which H (claude_bin args)));
        try discriminate Hres; reflexivity.
    + rewrite build_cmd_groups. unfold after_resume. subst args'. simpl. rewrite Hp.
      exists (before_resume (set_extra args (strip_separator (extra args)))
              ++ opt_group "--resume" (resume args)), (strip_separator (extra args)).
      simpl. f_equal. now rewrite <- !app_assoc.
Qed.

Lemma empty_prompt_is_passed_witness :
  has_pair "-p" "" (build_cmd all_blank)
  /\ main (posix_host full_path 0) all_blank fresh
     = run_headless (posix_host full_path 0) ["claude"; "-p"; ""] None fresh.
Proof.
  pose proof (empty_prompt_is_passed all_blank eq_refl) as [_ [Hpair [_ [_ Hmain]]]].
  split; [exact Hpair|].
  refine (proj1 (Hmain _ (posix_host full_path 0) fresh eq_refl)).
  discriminate.
Defined.

Example build_cmd_all_blank : build_cmd all_blank = ["claude"; "-p"; ""].
Proof. reflexivity. Qed.

(** ** C8: the headless runner *)

(** The headless runner spawns exactly one process, waits for it however
    long it takes and returns the status of that process. *)
Lemma run_headless_eq (H : Host) (cmd : list string) (dir : option string) (w : World) :
  run_headless H cmd dir w
  = (Ok (returncode (child H (trace w) (headless_argv H cmd) dir)),
     after_spawn H w (headless_argv H cmd) dir).
Proof.
  unfold run_headless, headless_argv, wraps_in_script, truthy.
  destruct (String.eqb (os_name H) "nt"); cbn [negb andb].
  - now destruct (which H "script").
  - destruct (which H "script") as [sb|]; [|reflexivity].
    now destruct (PyStr.nonempty sb).
Qed.

Lemma headless_argv_direct (H : Host) (cmd : list string) :
  wraps_in_script H = false -> headless_argv H cmd = cmd.
Proof.
  unfold headless_argv. intros Hw. rewrite Hw. now destruct (which H "script").
Qed.

Lemma headless_argv_wrapped (H : Host) (cmd : list string) (script_bin : string) :
  os_name H <> "nt" -> which H "script" = Some script_bin -> script_bin <> "" ->
  headless_argv H cmd = script_argv script_bin cmd.
Proof.
  intros Hos Hw Hne. unfold headless_argv, wraps_in_script, truthy.
  rewrite Hw. apply String.eqb_neq in Hos. rewrite Hos.
  apply nonempty_iff in Hne. now rewrite Hne.
Qed.

(** C8.  On Windows, or when [script] is not on the search path, the
    headless runner makes one blocking call of the argument vector itself
    and returns that child's exit status as it is.  When [script] is found
    it makes one blocking call of [script -q -c <line> /dev/null], the line
    being the shell-quoted words joined by spaces, and returns the status
    of [script]: with the allocator of util-linux, which exits with 0
    without [-e], a target that exits with another status is reported as
    0, so its status is not forwarded. *)
Theorem script_hides_exit_status (H : Host) (cmd : list string) (dir : option string) (w : World) :
  (wraps_in_script H = false ->
   run_headless H cmd dir w
   = (Ok (returncode (child H (trace w) cmd dir)), after_spawn H w cmd dir))
  /\ (forall script_bin,
        os_name H <> "nt" -> which H "script" = Some script_bin -> script_bin <> "" ->
        run_headless H cmd dir w
        = (Ok (returncode (child H (trace w) (script_argv script_bin cmd) dir)),
           after_spawn H w (script_argv script_bin cmd) dir)
        /\ (script_exits_zero H ->
            returncode (child H (trace w) cmd dir) <> 0 ->
            fst (run_headless H cmd dir w) = Ok 0
            /\ fst (run_headless H cmd dir w)
               <> Ok (returncode (child H (trace w) cmd dir)))).
Proof.
  split.
  - intros Hdirect. now rewrite run_headless_eq, (headless_argv_direct H cmd Hdirect).
  - intros sb Hos Hw Hne.
    rewrite run_headless_eq, (headless_argv_wrapped H cmd sb Hos Hw Hne).
    split; [reflexivity|]. intros Hzero Htarget. cbn [fst].
    unfold script_argv. rewrite (Hzero (trace w) sb _ dir Hw).
    split; [reflexivity|]. intros [= Heq]. now apply Htarget.
Qed.

Lemma script_hides_exit_status_witness :
  run_headless script_host ["claude"; "-p"; "summarize all"] None fresh
  = (Ok 0,
     {| clock := 10;
        trace := [Spawn ["/usr/bin/script"; "-q"; "-c"; "claude -p 'summarize all'"; "/dev/null"]
                        None] |})
  /\ returncode (child script_host (trace fresh) ["claude"; "-p"; "summarize all"] None) = 7
  /\ fst (run_headless script_host ["claude"; "-p"; "summarize all"] None fresh)
     <> Ok (returncode (child script_host (trace fresh) ["claude"; "-p"; "summarize all"] None))
  /\ run_headless (windows_host full_path 7) ["claude"] None fresh
     = (Ok 7, {| clock := 10; trace := [Spawn ["claude"] None] |}).
Proof.
  pose proof (script_hides_exit_status script_host ["claude"; "-p"; "summarize all"] None fresh)
    as [_ Hwrapped].
  pose proof (script_hides_exit_status (windows_host full_path 7) ["claude"] None fresh)
    as [Hdirect _].
  destruct (Hwrapped "/usr/bin/script") as [Hrun Hlost];
    [discriminate | reflexivity | discriminate |].
  split; [exact Hrun|]. split; [reflexivity|]. split.
  - apply Hlost.
    + intros tr sb line dir Hw. injection Hw as <-. reflexivity.
    + discriminate.
  - apply Hdirect. reflexivity.
Defined.

(** ** C4: the executable must resolve *)

(** C4.  When the executable path is neither on disk nor on the search
    path, [main] returns 2 and the only thing it does is write the message
    [claude binary not found: <path>] to the error stream: no child is
    spawned and neither runner is entered. *)
Theorem missing_binary_fails_fast (H : Host) (args : Namespace) (w : World) :
  path_exists H (claude_bin args) = false ->
  truthy (which H (claude_bin args)) = false ->
  main H args w
  = (Ok 2, after_stderr w ("claude binary not found: " +++ claude_bin args)).
Proof.
  intros Hex Hw. rewrite main_dispatch. now rewrite Hex, Hw.
Qed.

Lemma missing_binary_fails_fast_witness :
  main (posix_host [] 0) (sample (Some "/init") Interactive) fresh
  = (Ok 2, {| clock := 0; trace := [Stderr "claude binary not found: claude"] |}).
Proof.
  apply (missing_binary_fails_fast (posix_host [] 0) (sample (Some "/init") Interactive) fresh);
    reflexivity.
Defined.

(** ** C7: the platform checks of the interactive runner *)

(** C7.  On Windows, and on a machine without [tmux] on the search path,
    [run_interactive] returns 2 having done nothing but write one message to
    the error stream: no directory is made, no session is created and no
    child is spawned; [main] hands this result on when the interactive mode
    is selected. *)
Theorem interactive_platform_checks (H : Host) (args : Namespace) (w : World) :
  os_name H = "nt" \/ truthy (which H "tmux") = false ->
  exists text,
    run_interactive H args w = (Ok 2, after_stderr w text)
    /\ (text = "interactive tmux mode is not supported on Windows"
        \/ text = "tmux not found in PATH")
    /\ (target_resolves H args = true -> selects_interactive args = true ->
        main H args w = (Ok 2, after_stderr w text)).
Proof.
  intros Hbad.
  assert (Hrun : exists text,
             run_interactive H (set_extra args (strip_separator (extra args))) w
             = (Ok 2, after_stderr w text)
             /\ run_interactive H args w = (Ok 2, after_stderr w text)
             /\ (text = "interactive tmux mode is not supported on Windows"
                 \/ text = "tmux not found in PATH")).
  { unfold run_interactive.
    destruct (String.eqb_spec (os_name H) "nt") as [Hos|Hos].
    - eexists. split; [reflexivity|]. split; [reflexivity|]. now left.
    - destruct Hbad as [Hnt|Htm]; [contradiction|]. rewrite Htm.
      eexists. split; [reflexivity|]. split; [reflexivity|]. now right. }
  destruct Hrun as [text [Hrun' [Hrun Htext]]]. exists text.
  split; [exact Hrun|]. split; [exact Htext|].
  intros Hres Hsel. rewrite main_dispatch. unfold target_resolves in Hres.
  apply orb_true_iff in Hres.
  assert (Hgate : negb (path_exists H (claude_bin args))
                  && negb (truthy (which H (claude_bin args))) = false).
  { destruct Hres as [-> | ->]; simpl; [reflexivity | apply andb_false_r]. }
  now rewrite Hgate, Hsel.
Qed.

Lemma interactive_platform_checks_witness :
  exists text,
    run_interactive (windows_host full_path 0) (sample (Some "/init") Auto) fresh
    = (Ok 2, after_stderr fresh text)
    /\ (text = "interactive tmux mode is not supported on Windows"
        \/ text = "tmux not found in PATH")
    /\ (target_resolves (windows_host full_path 0) (sample (Some "/init") Auto) = true ->
        selects_interactive (sample (Some "/init") Auto) = true ->
        main (windows_host full_path 0) (sample (Some "/init") Auto) fresh
        = (Ok 2, after_stderr fresh text)).
Proof.
  apply (interactive_platform_checks (windows_host full_path 0) (sample (Some "/init") Auto) fresh).
  left. reflexivity.
Defined.

(** ** C3: the screen poller *)

Lemma poll_once_eq (H : Host) (sp tg needle : string) (w : World) :
  poll_once H sp tg needle w
  = (Ok (capture_shows H (trace w) sp tg needle),
     after_spawn H w (capture_argv sp tg 200) None).
Proof.
  unfold poll_once, except_called, tmux_capture, check_output, bind, subprocess_run,
    capture_shows, capture_at, after_spawn.
  destruct (returncode (child H (trace w) (capture_argv sp tg 200) None) =? 0);
    reflexivity.
Qed.

Lemma wait_loop_step (H : Host) (fuel : nat) (sp tg needle : string) (deadline : Z) (w : World) :
  wait_loop H (S fuel) sp tg needle deadline w
  = if clock w <? deadline then
      if capture_shows H (trace w) sp tg needle
      then (Ok (Some true), after_spawn H w (capture_argv sp tg 200) None)
      else wait_loop H fuel sp tg needle deadline
             (after_sleep (after_spawn H w (capture_argv sp tg 200) None) 500)
    else (Ok (Some false), w).
Proof.
  cbn [wait_loop]. unfold bind at 1. unfold time_time.
  destruct (clock w <? deadline); [|reflexivity].
  unfold bind at 1. rewrite poll_once_eq.
  destruct (capture_shows H (trace w) sp tg needle); reflexivity.
Qed.

Lemma capture_shows_false (H : Host) (tr : list Event) (sp tg needle : string) :
  capture_shows H tr sp tg needle = false ->
  returncode (capture_at H tr sp tg) <> 0
  \/ PyStr.contains needle (output (capture_at H tr sp tg)) = false.
Proof.
  unfold capture_shows. intros Hs. apply andb_false_iff in Hs as [Hs|Hs].
  - left. now apply Z.eqb_neq.
  - now right.
Qed.

(** The loop with enough fuel for the time that is left: it ends, after
    [n] idle rounds, on the first capture that shows the needle or on the
    first test of the clock at or past the deadline. *)
Lemma wait_loop_runs (H : Host) (sp tg needle : string) (deadline : Z) :
  forall (fuel : nat) (w : World),
    deadline - clock w <= 500 * Z.of_nat fuel ->
    exists n b w',
      wait_loop H (S fuel) sp tg needle deadline w = (Ok (Some b), w')
      /\ trace w' = trace w ++ poll_events n b sp tg
      /\ (forall i, (i < n)%nat ->
                    capture_shows H (trace w ++ idle_rounds i sp tg) sp tg needle = false)
      /\ (b = true -> capture_shows H (trace w ++ idle_rounds n sp tg) sp tg needle = true)
      /\ (b = false -> deadline <= clock w')
      /\ (n <= fuel)%nat
      /\ clock w + 500 * Z.of_nat n <= clock w'.
Proof.
  induction fuel as [|fuel IH]; intros w Hleft; rewrite wait_loop_step.
  - destruct (Z.ltb_spec (clock w) deadline) as [Hlt|Hge]; [lia|].
    exists 0%nat, false, w. unfold poll_events. simpl. rewrite app_nil_r.
    repeat split; try lia; try discriminate.
  - destruct (Z.ltb_spec (clock w) deadline) as [Hlt|Hge].
    + destruct (capture_shows H (trace w) sp tg needle) eqn:Hshow.
      * exists 0%nat, true, (after_spawn H w (capture_argv sp tg 200) None).
        unfold poll_events. simpl.
        repeat split; try lia; try discriminate.
        intros _. now rewrite app_nil_r.
      * set (w2 := after_sleep (after_spawn H w (capture_argv sp tg 200) None) 500).
        assert (Hclock : clock w + 500 <= clock w2).
        { unfold w2. simpl.
          pose proof (N2Z.is_nonneg (elapsed (child H (trace w) (capture_argv sp tg 200) None))).
          lia. }
        assert (Htrace : forall l, trace w2 ++ l = trace w ++ idle_round sp tg ++ l).
        { intros l. unfold w2. simpl. now rewrite <- !app_assoc. }
        destruct (IH w2) as [n [b [w' [Hrun [Htr [Hidle [Hhit [Hmiss [Hn Hclk]]]]]]]]]; [lia|].
        exists (S n), b, w'. split; [exact Hrun|]. split; [|split; [|split; [|split; [|split]]]].
        -- rewrite Htr, Htrace. unfold poll_events. cbn [idle_rounds].
           now rewrite <- !app_assoc.
        -- intros [|i] Hi.
           ++ simpl. now rewrite app_nil_r.
           ++ cbn [idle_rounds]. rewrite <- Htrace. apply Hidle. lia.
        -- intros Hb. cbn [idle_rounds]. rewrite <- Htrace. now apply Hhit.
        -- exact Hmiss.
        -- lia.
        -- lia.
    + exists 0%nat, false, w. unfold poll_events. simpl. rewrite app_nil_r.
      repeat split; try lia; try discriminate.
Qed.

(** The budget of [tmux_wait_for] is never used up. *)
Lemma wait_loop_budget_suffices (H : Host) (sp tg needle : string) (timeout_s : Z) (w : World) :
  fst (wait_loop H (poll_budget timeout_s) sp tg needle (clock w + 1000 * timeout_s) w)
  <> Ok None.
Proof.
  unfold poll_budget.
  destruct (wait_loop_runs H sp tg needle (clock w + 1000 * timeout_s)
              (Z.to_nat (2 * timeout_s)) w) as [n [b [w' [Hrun _]]]]; [lia|].
  rewrite Hrun. discriminate.
Qed.

(** C3.  [tmux_wait_for] always returns a Boolean.  It makes [n] idle
    rounds, each a capture of the last 200 lines that fails or does not
    show the needle followed by a sleep of 500 ms, and then either returns
    true right after the first capture that succeeds and contains the
    needle, without sleeping again, or returns false at a moment when the
    deadline, the start time plus [timeout_s] seconds, has been reached.  A
    capture that exits with an error only makes its round idle. *)
Theorem tmux_wait_for_polls (H : Host) (sp tg needle : string) (timeout_s : Z) (w : World) :
  exists n b w',
    tmux_wait_for H sp tg needle timeout_s w = (Ok b, w')
    /\ trace w' = trace w ++ poll_events n b sp tg
    /\ (forall i, (i < n)%nat ->
                  returncode (capture_at H (trace w ++ idle_rounds i sp tg) sp tg) <> 0
                  \/ PyStr.contains needle
                       (output (capture_at H (trace w ++ idle_rounds i sp tg) sp tg)) = false)
    /\ (b = true ->
        returncode (capture_at H (trace w ++ idle_rounds n sp tg) sp tg) = 0
        /\ PyStr.contains needle
             (output (capture_at H (trace w ++ idle_rounds n sp tg) sp tg)) = true)
    /\ (b = false -> clock w + 1000 * timeout_s <= clock w')
    /\ Z.of_nat n <= Z.max 0 (2 * timeout_s)
    /\ clock w + 500 * Z.of_nat n <= clock w'.
Proof.
  destruct (wait_loop_runs H sp tg needle (clock w + 1000 * timeout_s)
              (Z.to_nat (2 * timeout_s)) w)
    as [n [b [w' [Hrun [Htr [Hidle [Hhit [Hmiss [Hn Hclk]]]]]]]]]; [lia|].
  exists n, b, w'. split; [|split; [|split; [|split; [|split; [|split]]]]].
  - unfold tmux_wait_for, bind, time_time, poll_budget. now rewrite Hrun.
  - exact Htr.
  - intros i Hi. apply capture_shows_false. now apply Hidle.
  - intros Hb. specialize (Hhit Hb). unfold capture_shows in Hhit.
    apply andb_true_iff in Hhit as [Hrc Hin]. split; [now apply Z.eqb_eq | exact Hin].
  - exact Hmiss.
  - lia.
  - exact Hclk.
Qed.

Lemma tmux_wait_for_polls_witness :
  exists n b w',
    tmux_wait_for slow_pane_host "/tmp/s.sock" "cc:0.0" "trust this folder" 20 fresh
    = (Ok b, w')
    /\ trace w' = trace fresh ++ poll_events n b "/tmp/s.sock" "cc:0.0".
Proof.
  destruct (tmux_wait_for_polls slow_pane_host "/tmp/s.sock" "cc:0.0" "trust this folder"
              20 fresh) as [n [b [w' [Hrun [Htr _]]]]].
  exists n, b, w'. split; [exact Hrun | exact Htr].
Defined.

(** A canned capture sequence as in the specification: the first capture fails,
    the third shows the needle. *)
Example needle_at_third_capture :
  tmux_wait_for slow_pane_host "/tmp/s.sock" "cc:0.0" "trust this folder" 20 fresh
  = (Ok true, {| clock := 1030; trace := poll_events 2 true "/tmp/s.sock" "cc:0.0" |}).
Proof. vm_compute. reflexivity. Qed.

(** A pane that never shows the needle: false after the whole second. *)
Example needle_never_shown :
  tmux_wait_for (posix_host full_path 0) "/tmp/s.sock" "cc:0.0" "x" 1 fresh
  = (Ok false, {| clock := 1020; trace := poll_events 2 false "/tmp/s.sock" "cc:0.0" |}).
Proof. vm_compute. reflexivity. Qed.

(** ** [time.sleep] *)

Lemma time_sleep_ok (ms : Z) (w : World) :
  0 <= ms <= sleep_limit_ms -> time_sleep ms w = (Ok tt, after_sleep w ms).
Proof.
  intros Hms. unfold time_sleep, sleep_overflows.
  destruct (Z.ltb_spec ms (- sleep_limit_ms)); [unfold sleep_limit_ms in *; lia|].
  destruct (Z.ltb_spec sleep_limit_ms ms); [lia|]. cbn [orb].
  destruct (Z.ltb_spec ms 0); [lia | reflexivity].
Qed.

Lemma time_sleep_overflow (ms : Z) (w : World) :
  ms < - sleep_limit_ms \/ sleep_limit_ms < ms ->
  time_sleep ms w
  = (Raise (OverflowError "timestamp too large to convert to C _PyTime_t"), w).
Proof.
  intros Hms. unfold time_sleep, sleep_overflows.
  destruct (Z.ltb_spec ms (- sleep_limit_ms)); [reflexivity|].
  destruct (Z.ltb_spec sleep_limit_ms ms); [reflexivity | lia].
Qed.

Lemma time_sleep_negative (ms : Z) (w : World) :
  - sleep_limit_ms <= ms < 0 ->
  time_sleep ms w = (Raise (ValueError "sleep length must be non-negative"), w).
Proof.
  intros Hms. unfold time_sleep, sleep_overflows.
  destruct (Z.ltb_spec ms (- sleep_limit_ms)); [lia|].
  destruct (Z.ltb_spec sleep_limit_ms ms); [unfold sleep_limit_ms in *; lia|]. cbn [orb].
  destruct (Z.ltb_spec ms 0); [reflexivity | lia].
Qed.

(** A refused length leaves the world as it is. *)
Lemma time_sleep_refused (ms : Z) (w : World) :
  ms < 0 \/ sleep_limit_ms < ms -> exists e, time_sleep ms w = (Raise e, w).
Proof.
  intros Hms. destruct (Z.lt_ge_cases ms (- sleep_limit_ms)) as [Hlow|Hlow].
  - eexists. apply time_sleep_overflow. now left.
  - destruct Hms as [Hneg|Hbig].
    + eexists. apply time_sleep_negative. lia.
    + eexists. apply time_sleep_overflow. now right.
Qed.

Lemma time_sleep_cases (ms : Z) (w : World) :
  time_sleep ms w = (Ok tt, after_sleep w ms) \/ exists e, time_sleep ms w = (Raise e, w).
Proof.
  destruct (Z.lt_ge_cases ms 0) as [Hneg|Hpos].
  - right. apply time_sleep_refused. now left.
  - destruct (Z.lt_ge_cases sleep_limit_ms ms) as [Hbig|Hfit].
    + right. apply time_sleep_refused. now right.
    + left. apply time_sleep_ok. lia.
Qed.

(** ** C9: pacing of the prompt lines *)

Lemma lstrip_head (s : string) :
  PyStr.lstrip s = ""
  \/ exists c rest, PyStr.lstrip s = String c rest /\ PyStr.isspace c = false.
Proof.
  induction s as [|c s IH]; cbn [PyStr.lstrip]; [now left|].
  destruct (PyStr.isspace c) eqn:Hc; [exact IH|]. right. now exists c, s.
Qed.

Lemma lstrip_empty_iff (s : string) :
  PyStr.lstrip s = "" <-> PyStr.forall_chars PyStr.isspace s = true.
Proof.
  induction s as [|c s IH]; cbn [PyStr.lstrip PyStr.forall_chars]; [tauto|].
  destruct (PyStr.isspace c); simpl; [exact IH|]. split; discriminate.
Qed.

(** A line is kept by the comprehension of line 161 exactly when one of
    its characters is not white space. *)
Lemma strip_nonempty (s : string) :
  PyStr.nonempty (PyStr.strip s) = negb (PyStr.forall_chars PyStr.isspace s).
Proof.
  unfold PyStr.strip. destruct (lstrip_head s) as [He|[c [rest [He Hc]]]].
  - rewrite He. apply lstrip_empty_iff in He. now rewrite He.
  - destruct (PyStr.forall_chars PyStr.isspace s) eqn:Hall.
    + apply lstrip_empty_iff in Hall. congruence.
    + rewrite He. cbn [PyStr.rstrip]. rewrite Hc.
      now destruct (PyStr.rstrip rest).
Qed.

Lemma send_line_eq (H : Host) (sp tg : string) (delay : Z) (line : string) (w : World) :
  let lit := literal_keys sp tg line in
  let ent := enter_key sp tg in
  let w1 := after_spawn H w lit None in
  let w2 := after_spawn H w1 ent None in
  send_line H sp tg delay line w
  = if returncode (child H (trace w) lit None) =? 0 then
      if returncode (child H (trace w1) ent None) =? 0 then time_sleep delay w2
      else (Raise (CalledProcessError (returncode (child H (trace w1) ent None)) ent), w2)
    else (Raise (CalledProcessError (returncode (child H (trace w) lit None)) lit), w1).
Proof.
  cbv zeta. unfold send_line, check_call, bind, subprocess_run.
  fold (after_spawn H w (literal_keys sp tg line) None).
  destruct (returncode (child H (trace w) (literal_keys sp tg line) None) =? 0); [|reflexivity].
  cbn [ret].
  fold (after_spawn H (after_spawn H w (literal_keys sp tg line) None) (enter_key sp tg) None).
  destruct (returncode (child H (trace (after_spawn H w (literal_keys sp tg line) None))
                          (enter_key sp tg) None) =? 0); reflexivity.
Qed.

(** Whatever happens, what the loop has sent is an initial part of the
    paced schedule. *)
Lemma for_each_line_prefix (H : Host) (sp tg : string) (delay : Z) :
  forall (lines : list string) (w : World),
    exists k,
      trace (snd (for_each lines (send_line H sp tg delay) w))
      = trace w ++ firstn k (paced_lines sp tg delay lines).
Proof.
  induction lines as [|line lines IH]; intros w.
  - exists 0%nat. simpl. now rewrite app_nil_r.
  - cbn [for_each]. unfold bind at 1. rewrite send_line_eq. cbv zeta.
    set (lit := literal_keys sp tg line). set (ent := enter_key sp tg).
    destruct (returncode (child H (trace w) lit None) =? 0).
    + destruct (returncode (child H (trace (after_spawn H w lit None)) ent None) =? 0).
      * destruct (time_sleep_cases delay (after_spawn H (after_spawn H w lit None) ent None))
          as [Hslept|[e Hrefused]].
        -- rewrite Hslept.
           destruct (IH (after_sleep (after_spawn H (after_spawn H w lit None) ent None) delay))
             as [k Hk].
           exists (3 + k)%nat. rewrite Hk. simpl. now rewrite <- !app_assoc.
        -- rewrite Hrefused. exists 2%nat. simpl. now rewrite <- app_assoc.
      * exists 2%nat. simpl. now rewrite <- app_assoc.
    + exists 1%nat. reflexivity.
Qed.




(** The pacing scenario of the specification: three lines, 100 ms apart. *)
Example three_lines_schedule :
  nonblank_lines three_lines = ["/init"; "do thing"; "/status"]
  /\ send_prompt (posix_host full_path 0) paced_args "/tmp/s.sock" "cc:0.0" fresh
     = (Ok tt,
        {| clock := 360;
           trace := paced_line "/tmp/s.sock" "cc:0.0" 100 "/init"
                    ++ paced_line "/tmp/s.sock" "cc:0.0" 100 "do thing"
                    ++ paced_line "/tmp/s.sock" "cc:0.0" 100 "/status" |}).
Proof. split; vm_compute; reflexivity. Qed.

(** ** Reasoning about runs *)


Lemma appends_ret {A} (P : Event -> Prop) (a : A) : appends P (ret a).
Proof. intros w. exists []. simpl. now rewrite app_nil_r. Qed.

Lemma appends_raise {A} (P : Event -> Prop) (e : Exn) : appends P (@raise A e).
Proof. intros w. exists []. simpl. now rewrite app_nil_r. Qed.

Lemma appends_bind {A B} (P : Event -> Prop) (c : M A) (k : A -> M B) :
  appends P c -> (forall a, appends P (k a)) -> appends P (bind c k).
Proof.
  intros Hc Hk w. unfold bind. destruct (Hc w) as [evs [Htr Hevs]].
  destruct (c w) as [[a|e] w1]; simpl in Htr.
  - destruct (Hk a w1) as [evs' [Htr' Hevs']]. exists (evs ++ evs').
    rewrite Htr', Htr, <- app_assoc. split; [reflexivity | now apply Forall_app].
  - now exists evs.
Qed.

Lemma appends_emit (P : Event -> Prop) (e : Event) (dt : Z) : P e -> appends P (emit e dt).
Proof. intros He w. exists [e]. split; [reflexivity | now constructor]. Qed.

Lemma appends_sleep (P : Event -> Prop) (ms : Z) : P (Sleep ms) -> appends P (time_sleep ms).
Proof.
  intros He w. destruct (time_sleep_cases ms w) as [Hslept|[e Hrefused]].
  - rewrite Hslept. exists [Sleep ms]. split; [reflexivity | now constructor].
  - rewrite Hrefused. exists []. split; [now rewrite app_nil_r | constructor].
Qed.

Lemma appends_time (P : Event -> Prop) : appends P time_time.
Proof. intros w. exists []. simpl. now rewrite app_nil_r. Qed.

Lemma appends_run (P : Event -> Prop) (H : Host) (argv : list string) (dir : option string) :
  P (Spawn argv dir) -> appends P (subprocess_run H argv dir).
Proof. intros He w. exists [Spawn argv dir]. split; [reflexivity | now constructor]. Qed.

Lemma appends_check_call (P : Event -> Prop) (H : Host) (argv : list string) :
  P (Spawn argv None) -> appends P (check_call H argv).
Proof.
  intros He. unfold check_call. apply appends_bind; [now apply appends_run|].
  intros r. destruct (returncode r =? 0); [apply appends_ret | apply appends_raise].
Qed.

Lemma appends_check_output (P : Event -> Prop) (H : Host) (argv : list string) :
  P (Spawn argv None) -> appends P (check_output H argv).
Proof.
  intros He. unfold check_output. apply appends_bind; [now apply appends_run|].
  intros r. destruct (returncode r =? 0); [apply appends_ret | apply appends_raise].
Qed.

Lemma appends_except {A} (P : Event -> Prop) (body handler : M A) :
  appends P body -> appends P handler -> appends P (except_called body handler).
Proof.
  intros Hb Hh w. unfold except_called. destruct (Hb w) as [evs [Htr Hevs]].
  destruct (body w) as [[a|[code cmd|what|what|what]] w1]; simpl in Htr; try now exists evs.
  destruct (Hh w1) as [evs' [Htr' Hevs']]. exists (evs ++ evs').
  rewrite Htr', Htr, <- app_assoc. split; [reflexivity | now apply Forall_app].
Qed.

Lemma appends_for_each {A} (P : Event -> Prop) (body : A -> M unit) (xs : list A) :
  (forall x, appends P (body x)) -> appends P (for_each xs body).
Proof.
  intros Hb. induction xs as [|x xs IH]; cbn [for_each].
  - apply appends_ret.
  - apply appends_bind; [apply Hb | intros _; exact IH].
Qed.









Section Pane.

Variable H : Host.
Variables sp tg : string.

Lemma capture_is_traffic : pane_traffic sp tg (Spawn (capture_argv sp tg 200) None).
Proof. split; [reflexivity | now left]. Qed.

Lemma enter_is_traffic : pane_traffic sp tg (Spawn (enter_key sp tg) None).
Proof. split; [reflexivity | right; now left]. Qed.

Lemma literal_is_traffic (text : string) : pane_traffic sp tg (Spawn (literal_keys sp tg text) None).
Proof. split; [reflexivity | right; right; now exists text]. Qed.

Lemma appends_capture : appends (pane_traffic sp tg) (tmux_capture H sp tg 200).
Proof. apply appends_check_output, capture_is_traffic. Qed.

Lemma appends_poll_once (needle : string) : appends (pane_traffic sp tg) (poll_once H sp tg needle).
Proof.
  apply appends_except; [|apply appends_ret].
  apply appends_bind; [apply appends_capture | intros text; apply appends_ret].
Qed.

Lemma appends_wait_loop (needle : string) (deadline : Z) (fuel : nat) :
  appends (pane_traffic sp tg) (wait_loop H fuel sp tg needle deadline).
Proof.
  induction fuel as [|fuel IH]; cbn [wait_loop]; [apply appends_ret|].
  apply appends_bind; [apply appends_time|]. intros now.
  destruct (now <? deadline); [|apply appends_ret].
  apply appends_bind; [apply appends_poll_once|]. intros [|]; [apply appends_ret|].
  apply appends_bind; [now apply appends_sleep | intros _; exact IH].
Qed.

Lemma appends_wait_for (needle : string) (timeout_s : Z) :
  appends (pane_traffic sp tg) (tmux_wait_for H sp tg needle timeout_s).
Proof.
  unfold tmux_wait_for. apply appends_bind; [apply appends_time|]. intros now.
  apply appends_bind; [apply appends_wait_loop|]. intros [b|]; apply appends_ret.
Qed.

Lemma appends_acknowledge : appends (pane_traffic sp tg) (acknowledge_trust H sp tg).
Proof.
  unfold acknowledge_trust. apply appends_bind; [apply appends_wait_for|].
  intros [|]; [|apply appends_ret].
  apply appends_bind; [apply appends_run, enter_is_traffic|].
  intros _. now apply appends_sleep.
Qed.

Lemma appends_send_line (delay : Z) (line : string) : appends (pane_traffic sp tg) (send_line H sp tg delay line).
Proof.
  unfold send_line.
  apply appends_bind; [apply appends_check_call, literal_is_traffic|]. intros _.
  apply appends_bind; [apply appends_check_call, enter_is_traffic|]. intros _.
  now apply appends_sleep.
Qed.

Lemma appends_send_prompt (args : Namespace) : appends (pane_traffic sp tg) (send_prompt H args sp tg).
Proof.
  unfold send_prompt. destruct (truthy (prompt args)); [|apply appends_ret].
  destruct (prompt args) as [p|]; [|apply appends_ret].
  apply appends_for_each. intros line. apply appends_send_line.
Qed.

Lemma appends_hints (session : string) : appends (pane_traffic sp tg) (print_hints sp session tg).
Proof.
  unfold print_hints, print.
  repeat (apply appends_bind; [now apply appends_emit | intros _]).
  now apply appends_emit.
Qed.

Lemma appends_snapshot (args : Namespace) : appends (pane_traffic sp tg) (final_snapshot H args sp tg).
Proof.
  unfold final_snapshot, print. destruct (0 <? interactive_wait_s args); [|apply appends_ret].
  apply appends_bind; [now apply appends_sleep | intros _].
  apply appends_except; [|apply appends_ret].
  apply appends_bind; [now apply appends_emit | intros _].
  apply appends_bind; [apply appends_capture | intros text]. now apply appends_emit.
Qed.

(** Lines 152-178: everything after the session has been created. *)
Lemma appends_after_launch (args : Namespace) (line session : string) :
  appends (pane_traffic sp tg)
    (bind (check_call H (enter_key sp tg)) (fun _ =>
     bind (acknowledge_trust H sp tg) (fun _ =>
     bind (send_prompt H args sp tg) (fun _ =>
     bind (print_hints sp session tg) (fun _ =>
     bind (final_snapshot H args sp tg) (fun _ => ret 0)))))).
Proof.
  apply appends_bind; [apply appends_check_call, enter_is_traffic | intros _].
  apply appends_bind; [apply appends_acknowledge | intros _].
  apply appends_bind; [apply appends_send_prompt | intros _].
  apply appends_bind; [apply appends_hints | intros _].
  apply appends_bind; [apply appends_snapshot | intros _].
  apply appends_ret.
Qed.






End Pane.

(** ** The interactive run after its platform checks *)

(** The world in which the session of the run has just been created. *)
Lemma session_created (H : Host) (args : Namespace) (w : World) :
  mkdir_succeeds H (trace w) (socket_dir_of H args) = true ->
  returncode (child H (trace w ++ [Mkdir (socket_dir_of H args);
                                   Spawn (kill_session_argv H args) None])
                    (new_session_argv H args) None) = 0 ->
  exists w3,
    trace w3 = trace w ++ session_setup H args
    /\ drive_session H args w
       = bind (check_call H (literal_keys (socket_path_of H args) (target_of args)
                                          (launch_line H args)))
              (fun _ =>
               bind (check_call H (enter_key (socket_path_of H args) (target_of args))) (fun _ =>
               bind (acknowledge_trust H (socket_path_of H args) (target_of args)) (fun _ =>
               bind (send_prompt H args (socket_path_of H args) (target_of args)) (fun _ =>
               bind (print_hints (socket_path_of H args) (tmux_session args) (target_of args)) (fun _ =>
               bind (final_snapshot H args (socket_path_of H args) (target_of args)) (fun _ =>
               ret 0))))))
              w3.
Proof.
  intros Hmk Hnew.
  set (w1 := {| clock := clock w; trace := trace w ++ [Mkdir (socket_dir_of H args)] |}).
  set (w2 := after_spawn H w1 (kill_session_argv H args) None).
  exists (after_spawn H w2 (new_session_argv H args) None). split.
  - unfold session_setup. simpl. now rewrite <- !app_assoc.
  - unfold drive_session. cbv zeta.
    fold (socket_path_of H args). fold (target_of args).
    fold (kill_session_argv H args). fold (new_session_argv H args).
    unfold bind at 1. unfold path_mkdir. rewrite Hmk. fold w1.
    unfold bind at 1. unfold subprocess_run at 1. fold (after_spawn H w1 (kill_session_argv H args) None).
    fold w2.
    unfold bind at 1. unfold check_call at 1. unfold bind at 1. unfold subprocess_run at 1.
    assert (Htr : trace w2 = trace w ++ [Mkdir (socket_dir_of H args);
                                          Spawn (kill_session_argv H args) None]).
    { unfold w2, w1. simpl. now rewrite <- app_assoc. }
    rewrite <- Htr in Hnew. rewrite Hnew. reflexivity.
Qed.



(** From the creation of the session on, the run types the launch line
    and then only produces pane traffic. *)
Lemma launch_then_traffic (H : Host) (args : Namespace) (w : World) :
  mkdir_succeeds H (trace w) (socket_dir_of H args) = true ->
  returncode (child H (trace w ++ [Mkdir (socket_dir_of H args);
                                   Spawn (kill_session_argv H args) None])
                    (new_session_argv H args) None) = 0 ->
  exists evs,
    trace (snd (drive_session H args w))
    = trace w ++ session_setup H args
      ++ Spawn (literal_keys (socket_path_of H args) (target_of args) (launch_line H args)) None
         :: evs
    /\ Forall (pane_traffic (socket_path_of H args) (target_of args)) evs.
Proof.
  intros Hmk Hnew. destruct (session_created H args w Hmk Hnew) as [w3 [Htr ->]].
  set (sp := socket_path_of H args). set (tg := target_of args).
  unfold bind at 1. unfold check_call at 1. unfold bind at 1. unfold subprocess_run at 1.
  destruct (returncode (child H (trace w3) (literal_keys sp tg (launch_line H args)) None) =? 0).
  - cbn [ret].
    match goal with
    | |- context [snd (?k ?w4)] =>
        destruct (appends_after_launch H sp tg args (launch_line H args) (tmux_session args) w4)
          as [evs [Hevs Hall]]
    end.
    exists evs. split; [|exact Hall].
    rewrite Hevs. cbn [trace]. rewrite Htr. now rewrite <- !app_assoc.
  - exists []. split; [|constructor]. cbn [raise snd trace]. rewrite Htr.
    now rewrite <- !app_assoc.
Qed.

Lemma run_interactive_checked (H : Host) (args : Namespace) :
  os_name H <> "nt" -> truthy (which H "tmux") = true ->
  run_interactive H args = drive_session H args.
Proof.
  intros Hos Htmux. unfold run_interactive.
  apply String.eqb_neq in Hos. now rewrite Hos, Htmux.
Qed.







(** ** C5: the exit code of the interactive run *)



(** ** C6: the launch line of the interactive run *)

Lemma interactive_base_groups (args : Namespace) :
  interactive_base args
  = [claude_bin args]
    ++ opt_group "--permission-mode" (permission_mode args)
    ++ opt_group "--allowedTools" (allowed_tools args)
    ++ opt_group "--append-system-prompt" (append_system_prompt args)
    ++ opt_group "--system-prompt" (system_prompt args)
    ++ continue_group (continue_latest args)
    ++ opt_group "--resume" (resume args)
    ++ extra args.
Proof.
  unfold interactive_base, continue_group. rewrite !add_opt_group.
  destruct (continue_latest args), (extra args);
    rewrite ?app_nil_r, <- ?app_assoc; reflexivity.
Qed.

(** C6.  The words of the launch command are the executable path followed
    by the groups of permission-mode, tool-allow-list, system-prompt-append,
    system-prompt-replace, continuation, resume and the pass-through
    arguments: what [build_cmd] gives for the configuration without output
    format, schema and prompt.  The launch line is [cd <dir> && ] followed
    by these words, each shell-quoted, joined by spaces; it is the same
    line whatever the output-format and schema fields (and the prompt)
    hold.  Once the session exists the line is typed into the pane as the
    one text argument of a literal key injection, right after the session's
    creation. *)
Theorem interactive_launch_line (H : Host) (args : Namespace) (w : World) :
  interactive_base args
  = [claude_bin args]
    ++ opt_group "--permission-mode" (permission_mode args)
    ++ opt_group "--allowedTools" (allowed_tools args)
    ++ opt_group "--append-system-prompt" (append_system_prompt args)
    ++ opt_group "--system-prompt" (system_prompt args)
    ++ continue_group (continue_latest args)
    ++ opt_group "--resume" (resume args)
    ++ extra args
  /\ interactive_base args = build_cmd (retarget args None None None)
  /\ launch_line H args
     = "cd " +++ Shlex.quote (or_else (cwd args) (getcwd H)) +++ " && "
       +++ PyStr.join " " (map Shlex.quote (interactive_base args))
  /\ (forall fmt schema p, launch_line H (retarget args fmt schema p) = launch_line H args)
  /\ (os_name H <> "nt" -> truthy (which H "tmux") = true ->
      mkdir_succeeds H (trace w) (socket_dir_of H args) = true ->
      returncode (child H (trace w ++ [Mkdir (socket_dir_of H args);
                                       Spawn (kill_session_argv H args) None])
                        (new_session_argv H args) None) = 0 ->
      exists evs,
        trace (snd (run_interactive H args w))
        = trace w ++ session_setup H args
          ++ Spawn (literal_keys (socket_path_of H args) (target_of args) (launch_line H args))
                   None
             :: evs
        /\ Forall (pane_traffic (socket_path_of H args) (target_of args)) evs).
Proof.
  split; [apply interactive_base_groups|]. split; [|split; [reflexivity|split]].
  - rewrite interactive_base_groups, build_cmd_groups.
    unfold before_resume, after_resume. simpl. now rewrite <- !app_assoc.
  - intros fmt schema p. reflexivity.
  - intros Hos Htmux Hmk Hnew. rewrite (run_interactive_checked H args Hos Htmux).
    now apply launch_then_traffic.
Qed.

Lemma interactive_launch_line_witness :
  exists evs,
    trace (snd (run_interactive picky_host paced_args fresh))
    = trace fresh ++ session_setup picky_host paced_args
      ++ Spawn (literal_keys (socket_path_of picky_host paced_args) (target_of paced_args)
                             (launch_line picky_host paced_args))
               None
         :: evs
    /\ Forall (pane_traffic (socket_path_of picky_host paced_args) (target_of paced_args)) evs.
Proof.
  refine (proj2 (proj2 (proj2 (proj2
            (interactive_launch_line picky_host paced_args fresh)))) _ _ _ _).
  - discriminate.
  - reflexivity.
  - reflexivity.
  - reflexivity.
Defined.

(** A configuration with output format and schema set: neither shows in
    the launch line, and the directory with a space is quoted. *)
Example launch_line_sample :
  launch_line picky_host paced_args
  = "cd '/srv/my repo' && claude --permission-mode plan --verbose".
Proof. reflexivity. Qed.

(** A whole interactive run on the machine whose captures fail. *)
Example interactive_run_sample :
  let sp := "/run/socks/claude-code.sock" in
  let tg := "cc:0.0" in
  main picky_host paced_args fresh
  = (Ok 0,
     {| clock := 21810;
        trace :=
          [Mkdir "/run/socks";
           Spawn (tmux sp ["kill-session"; "-t"; "cc"]) None;
           Spawn (tmux sp ["new-session"; "-d"; "-s"; "cc"; "-n"; "shell"]) None;
           Spawn (literal_keys sp tg
                    "cd '/srv/my repo' && claude --permission-mode plan --verbose") None;
           Spawn (enter_key sp tg) None]
          ++ idle_rounds 40 sp tg
          ++ paced_lines sp tg 100 ["/init"; "do thing"; "/status"]
          ++ [Stdout "Started interactive Claude Code in tmux";
              Stdout "Monitor:  tmux -S /run/socks/claude-code.sock attach -t cc";
              Stdout "Snapshot: tmux -S /run/socks/claude-code.sock capture-pane -p -J -t cc:0.0 -S -200";
              Sleep 1000;
              Stdout (PyStr.newline +++ "--- tmux snapshot (last 200 lines) ---" +++ PyStr.newline);
              Spawn (capture_argv sp tg 200) None] |}).
Proof. vm_compute. reflexivity. Qed.

(** * Beyond the claims *)

(** ** Lines of a prompt *)

Lemma linebreak_is_space (c : ascii) :
  PyStr.is_linebreak c = true -> PyStr.isspace c = true.
Proof.
  unfold PyStr.is_linebreak, PyStr.isspace, PyStr.code_in.
  cbn [existsb]. intros Hc.
  repeat (apply orb_true_iff in Hc as [Hc|Hc];
          [rewrite Hc; rewrite ?orb_true_r; reflexivity|]).
  discriminate.
Qed.

Lemma slash_not_space : PyStr.isspace "/" = false.
Proof. reflexivity. Qed.

Lemma forall_chars_app (P : ascii -> bool) (s t : string) :
  PyStr.forall_chars P (s +++ t) = PyStr.forall_chars P s && PyStr.forall_chars P t.
Proof.
  induction s as [|c s IH]; cbn [String.append PyStr.forall_chars]; [reflexivity|].
  now rewrite IH, andb_assoc.
Qed.

Lemma append_assoc (s t u : string) : (s +++ t) +++ u = s +++ t +++ u.
Proof. induction s as [|c s IH]; cbn [String.append]; [reflexivity | now rewrite IH]. Qed.

Lemma append_empty_r (s : string) : s +++ "" = s.
Proof. induction s as [|c s IH]; cbn [String.append]; [reflexivity | now rewrite IH]. Qed.

Lemma lstrip_app_blank (cur t : string) :
  PyStr.forall_chars PyStr.isspace cur = true ->
  PyStr.lstrip (cur +++ t) = PyStr.lstrip t.
Proof.
  induction cur as [|c cur IH]; cbn [String.append PyStr.forall_chars PyStr.lstrip];
    [reflexivity|].
  intros Hall. apply andb_true_iff in Hall as [Hc Hall]. rewrite Hc. now apply IH.
Qed.

Lemma lstrip_app_text (cur t : string) :
  PyStr.forall_chars PyStr.isspace cur = false ->
  PyStr.lstrip (cur +++ t) = PyStr.lstrip cur +++ t.
Proof.
  induction cur as [|c cur IH]; cbn [String.append PyStr.forall_chars PyStr.lstrip];
    [discriminate|].
  destruct (PyStr.isspace c); cbn [andb]; [exact IH | reflexivity].
Qed.

Lemma startswith_app (s t : string) (c : ascii) :
  s <> "" -> PyStr.startswith (s +++ t) (String c "") = PyStr.startswith s (String c "").
Proof. destruct s as [|d s]; [congruence|]. reflexivity. Qed.

Lemma lstrip_text_nonempty (cur : string) :
  PyStr.forall_chars PyStr.isspace cur = false -> PyStr.lstrip cur <> "".
Proof.
  intros Hall He. apply lstrip_empty_iff in He. congruence.
Qed.

(** Adding a character that is no line boundary to the line under
    construction. *)
Lemma slash_led_snoc (cur : string) (c : ascii) :
  slash_led (cur +++ String c "")
  = if PyStr.forall_chars PyStr.isspace cur
    then Ascii.eqb c "/"
    else slash_led cur.
Proof.
  unfold slash_led. destruct (PyStr.forall_chars PyStr.isspace cur) eqn:Hall.
  - rewrite (lstrip_app_blank _ _ Hall). cbn [PyStr.lstrip].
    destruct (PyStr.isspace c) eqn:Hc.
    + cbn [PyStr.startswith]. destruct (Ascii.eqb_spec c "/") as [->|]; [|reflexivity].
      discriminate Hc.
    + cbn [PyStr.startswith]. rewrite Ascii.eqb_sym. now rewrite andb_true_r.
  - rewrite (lstrip_app_text _ _ Hall).
    apply startswith_app. now apply lstrip_text_nonempty.
Qed.

Lemma slash_led_blank (cur : string) :
  PyStr.forall_chars PyStr.isspace cur = true -> slash_led cur = false.
Proof.
  intros Hall. unfold slash_led. apply lstrip_empty_iff in Hall. now rewrite Hall.
Qed.

(** What [any(...)] over the lines says, as one reading of the text. *)
Lemma any_line_scan :
  forall (n : nat) (s cur : string),
    (String.length s <= n)%nat ->
    existsb (fun line => PyStr.startswith (PyStr.lstrip line) "/")
            (PyStr.splitlines_from cur s)
    = slash_led cur || slash_scan (PyStr.forall_chars PyStr.isspace cur) s.
Proof.
  induction n as [|n IH]; intros s cur Hlen.
  - destruct s; [|simpl in Hlen; lia]. cbn [PyStr.splitlines_from slash_scan].
    destruct cur; [reflexivity|]. cbn [existsb]. fold (slash_led (String a cur)).
    now rewrite !orb_false_r.
  - destruct s as [|c rest].
    + cbn [PyStr.splitlines_from slash_scan].
      destruct cur; [reflexivity|]. cbn [existsb]. fold (slash_led (String a cur)).
      now rewrite !orb_false_r.
    + cbn [String.length] in Hlen. cbn [PyStr.splitlines_from slash_scan].
      destruct (PyStr.is_linebreak c) eqn:Hbr.
      * assert (Hns : Ascii.eqb c "/" = false).
        { destruct (Ascii.eqb_spec c "/") as [->|]; [discriminate Hbr | reflexivity]. }
        rewrite Hns.
        assert (Hnext : forall t, (String.length t <= n)%nat ->
                  existsb (fun line => PyStr.startswith (PyStr.lstrip line) "/")
                          (cur :: PyStr.splitlines_from "" t)
                  = slash_led cur || slash_scan true t).
        { intros t Ht. cbn [existsb]. fold (slash_led cur). rewrite (IH t "" Ht).
          reflexivity. }
        destruct rest as [|d rest'].
        -- apply Hnext. simpl. lia.
        -- destruct (PyStr.is_cr c && PyStr.is_lf d) eqn:Hcrlf.
           ++ rewrite Hnext by (cbn [String.length] in Hlen; lia).
              apply andb_true_iff in Hcrlf as [_ Hlf].
              assert (Hd : d = "010"%char).
              { unfold PyStr.is_lf in Hlf. apply Nat.eqb_eq in Hlf.
                rewrite <- (ascii_nat_embedding d), Hlf. reflexivity. }
              subst d. reflexivity.
           ++ apply Hnext. lia.
      * rewrite (IH rest (cur +++ String c "")) by lia.
        rewrite slash_led_snoc, forall_chars_app. cbn [PyStr.forall_chars].
        rewrite andb_true_r.
        destruct (PyStr.forall_chars PyStr.isspace cur) eqn:Hall.
        -- rewrite (slash_led_blank _ Hall). cbn [andb orb].
           destruct (Ascii.eqb_spec c "/") as [->|Hc]; [reflexivity|].
           now destruct (PyStr.isspace c).
        -- cbn [andb]. destruct (slash_led cur); [reflexivity|]. cbn [orb].
           destruct (Ascii.eqb c "/"); [reflexivity|].
           now destruct (PyStr.isspace c).
Qed.

Lemma looks_like_scan (s : string) :
  looks_like_slash_commands (Some s) = slash_scan true s.
Proof.
  unfold looks_like_slash_commands. destruct s as [|c s]; [reflexivity|].
  cbn [PyStr.nonempty negb]. unfold PyStr.splitlines.
  now rewrite (any_line_scan _ _ "" (le_n _)).
Qed.

Lemma scan_blanks_then_slash (ws post : string) :
  PyStr.forall_chars PyStr.isspace ws = true ->
  slash_scan true (ws +++ "/" +++ post) = true.
Proof.
  induction ws as [|c ws IH]; cbn [String.append PyStr.forall_chars]; intros Hall.
  - reflexivity.
  - apply andb_true_iff in Hall as [Hc Hall]. cbn [slash_scan].
    destruct (Ascii.eqb_spec c "/") as [->|_]; [discriminate Hc|].
    rewrite Hc. destruct (PyStr.is_linebreak c); now apply IH.
Qed.

Lemma scan_after_boundary (pre ws post : string) (b : ascii) :
  PyStr.is_linebreak b = true ->
  PyStr.forall_chars PyStr.isspace ws = true ->
  forall fresh, slash_scan fresh (pre +++ String b ws +++ "/" +++ post) = true.
Proof.
  intros Hb Hws. induction pre as [|c pre IH]; intros fresh; cbn [String.append slash_scan].
  - destruct (Ascii.eqb_spec b "/") as [->|_]; [discriminate Hb|].
    rewrite Hb. now apply scan_blanks_then_slash.
  - destruct (Ascii.eqb c "/"); [rewrite IH; apply orb_true_r|].
    destruct (PyStr.is_linebreak c); [apply IH|].
    destruct (PyStr.isspace c); apply IH.
Qed.

Lemma scan_finds_slash :
  forall (s : string) (fresh : bool),
    slash_scan fresh s = true ->
    exists pre ws post,
      s = pre +++ ws +++ "/" +++ post
      /\ PyStr.forall_chars PyStr.isspace ws = true
      /\ ((fresh = true /\ pre = "")
          \/ exists b ws', ws = String b ws' /\ PyStr.is_linebreak b = true).
Proof.
  induction s as [|c s IH]; intros fresh; cbn [slash_scan]; [discriminate|].
  assert (Hshift : forall fr, slash_scan fr s = true ->
            (fr = true -> fresh = true /\ PyStr.isspace c = true) ->
            exists pre ws post,
              String c s = pre +++ ws +++ "/" +++ post
              /\ PyStr.forall_chars PyStr.isspace ws = true
              /\ ((fresh = true /\ pre = "")
                  \/ exists b ws', ws = String b ws' /\ PyStr.is_linebreak b = true)).
  { intros fr Hscan Hfr. destruct (IH fr Hscan) as [pre [ws [post [Heq [Hws Hpos]]]]].
    destruct Hpos as [[Hf Hpre]|Hbr].
    - destruct (Hfr Hf) as [Hfresh Hc]. subst pre.
      exists "", (String c ws), post. cbn [String.append] in *. rewrite Heq.
      split; [reflexivity|]. split; [cbn [PyStr.forall_chars]; now rewrite Hc, Hws|].
      left. now split.
    - exists (String c pre), ws, post. cbn [String.append]. rewrite Heq.
      split; [reflexivity|]. split; [exact Hws|]. now right. }
  destruct (Ascii.eqb_spec c "/") as [->|Hc].
  - destruct fresh; cbn [orb].
    + intros _. exists "", "", s. split; [reflexivity|]. split; [reflexivity|].
      left. now split.
    + intros Hscan. apply (Hshift false Hscan). discriminate.
  - destruct (PyStr.is_linebreak c) eqn:Hbr.
    + intros Hscan. destruct (IH true Hscan) as [pre [ws [post [Heq [Hws Hpos]]]]].
      destruct Hpos as [[_ Hpre]|Hbr'].
      * subst pre. exists "", (String c ws), post. cbn [String.append] in *. rewrite Heq.
        split; [reflexivity|].
        split; [cbn [PyStr.forall_chars]; now rewrite (linebreak_is_space _ Hbr), Hws|].
        right. now exists c, ws.
      * exists (String c pre), ws, post. cbn [String.append]. rewrite Heq.
        split; [reflexivity|]. split; [exact Hws|]. now right.
    + destruct (PyStr.isspace c) eqn:Hsp.
      * intros Hscan. apply (Hshift fresh Hscan). intros ->. now split.
      * intros Hscan. apply (Hshift false Hscan). discriminate.
Qed.

(** X1.  The heuristic finds slash commands in a prompt exactly when some
    [/] of it is preceded by nothing but white space back to the start of
    the prompt or back to a line boundary. *)
Theorem slash_heuristic_by_position (s : string) :
  looks_like_slash_commands (Some s) = true <-> slash_at_line_start s.
Proof.
  rewrite looks_like_scan. unfold slash_at_line_start. split.
  - intros Hscan. destruct (scan_finds_slash s true Hscan) as [pre [ws [post [Heq [Hws Hpos]]]]].
    exists pre, ws, post. split; [exact Heq|]. split; [exact Hws|].
    destruct Hpos as [[_ Hpre]|Hbr]; [now left | now right].
  - intros [pre [ws [post [-> [Hws Hpos]]]]]. destruct Hpos as [->|[b [ws' [-> Hb]]]].
    + now apply scan_blanks_then_slash.
    + cbn [PyStr.forall_chars] in Hws. apply andb_true_iff in Hws as [_ Hws].
      cbn [String.append]. now apply scan_after_boundary.
Qed.

Lemma scan_needs_slash (s : string) (fresh : bool) :
  slash_scan fresh s = true -> PyStr.contains "/" s = true.
Proof.
  revert fresh. induction s as [|c s IH]; intros fresh Hscan; cbn [slash_scan] in Hscan;
    [discriminate|].
  cbn [PyStr.contains].
  destruct (Ascii.eqb_spec c "/") as [->|Hc]; [reflexivity|].
  assert (Hrest : PyStr.contains "/" s = true).
  { destruct (PyStr.is_linebreak c); [now apply (IH true)|].
    destruct (PyStr.isspace c); [now apply (IH fresh) | now apply (IH false)]. }
  rewrite Hrest. apply orb_true_r.
Qed.

(** X2.  In [auto] mode a prompt without any [/] never selects the
    interactive mode, so [main] runs it headless. *)
Theorem no_slash_stays_headless (H : Host) (args : Namespace) (p : string) (w : World) :
  mode args = Auto -> prompt args = Some p -> PyStr.contains "/" p = false ->
  target_resolves H args = true ->
  selects_interactive args = false
  /\ main H args w
     = run_headless H (build_cmd (set_extra args (strip_separator (extra args)))) (cwd args) w.
Proof.
  intros Hm Hp Hno Hres.
  assert (Hsel : selects_interactive args = false).
  { unfold selects_interactive, resolve_mode. rewrite Hm, Hp, looks_like_scan.
    destruct (slash_scan true p) eqn:Hscan; [|reflexivity].
    apply scan_needs_slash in Hscan. congruence. }
  split; [exact Hsel|]. rewrite main_dispatch, Hsel. unfold target_resolves in Hres.
  destruct (path_exists H (claude_bin args)), (truthy (which H (claude_bin args)));
    try discriminate Hres; reflexivity.
Qed.

Lemma no_slash_stays_headless_witness :
  selects_interactive (sample (Some "explain the parser") Auto) = false
  /\ main (posix_host full_path 0) (sample (Some "explain the parser") Auto) fresh
     = run_headless (posix_host full_path 0) ["claude"; "-p"; "explain the parser"] None fresh.
Proof.
  apply (no_slash_stays_headless (posix_host full_path 0)
           (sample (Some "explain the parser") Auto) "explain the parser" fresh);
    reflexivity.
Defined.

(** X3.  A prompt whose first character is [/] selects the interactive
    mode unless the mode is explicitly [headless]. *)
Theorem leading_slash_goes_interactive (args : Namespace) (p : string) :
  prompt args = Some p -> PyStr.startswith p "/" = true -> mode args <> Headless ->
  selects_interactive args = true.
Proof.
  intros Hp Hs Hm. unfold selects_interactive, resolve_mode. rewrite Hp, looks_like_scan.
  apply startswith_slash in Hs as [rest ->]. cbn [String.append slash_scan].
  destruct (mode args); try reflexivity. congruence.
Qed.

Lemma leading_slash_goes_interactive_witness :
  selects_interactive (sample (Some "/init") Auto) = true.
Proof.
  apply (leading_slash_goes_interactive (sample (Some "/init") Auto) "/init");
    [reflexivity | reflexivity | discriminate].
Defined.

(** A path in the middle of a sentence is no slash command; an indented
    command on a later line is one. *)
Example path_in_sentence_is_headless :
  looks_like_slash_commands (Some "read src/main.py and summarise") = false.
Proof. reflexivity. Qed.

Example indented_command_is_interactive :
  looks_like_slash_commands (Some ("first do this" +++ PyStr.newline +++ "   /compact")) = true.
Proof. reflexivity. Qed.

(** A property of characters that holds in the line under construction
    and for every character of the text that is no line boundary holds in
    every line. *)
Lemma lines_keep (P : ascii -> bool) :
  forall (n : nat) (s cur line : string),
    (String.length s <= n)%nat ->
    PyStr.forall_chars P cur = true ->
    PyStr.forall_chars (fun c => PyStr.is_linebreak c || P c) s = true ->
    In line (PyStr.splitlines_from cur s) ->
    PyStr.forall_chars P line = true.
Proof.
  induction n as [|n IH]; intros s cur line Hlen Hcur Hs Hin.
  - destruct s; [|simpl in Hlen; lia]. cbn [PyStr.splitlines_from] in Hin.
    destruct cur; [contradiction|]. destruct Hin as [<-|[]]. exact Hcur.
  - destruct s as [|c rest].
    + cbn [PyStr.splitlines_from] in Hin.
      destruct cur; [contradiction|]. destruct Hin as [<-|[]]. exact Hcur.
    + cbn [String.length] in Hlen. cbn [PyStr.forall_chars] in Hs.
      apply andb_true_iff in Hs as [Hc Hrest]. cbn [PyStr.splitlines_from] in Hin.
      destruct (PyStr.is_linebreak c) eqn:Hbr.
      * assert (Hnext : forall t, (String.length t <= n)%nat ->
                  PyStr.forall_chars (fun c => PyStr.is_linebreak c || P c) t = true ->
                  In line (cur :: PyStr.splitlines_from "" t) ->
                  PyStr.forall_chars P line = true).
        { intros t Ht HQ [<-|Hin']; [exact Hcur|]. now apply (IH t "" line Ht). }
        destruct rest as [|d rest'].
        -- apply (Hnext ""); [simpl; lia | reflexivity | exact Hin].
        -- destruct (PyStr.is_cr c && PyStr.is_lf d).
           ++ cbn [PyStr.forall_chars] in Hrest. apply andb_true_iff in Hrest as [_ Hrest'].
              apply (Hnext rest'); [cbn [String.length] in Hlen; lia | exact Hrest' | exact Hin].
           ++ apply (Hnext (String d rest')); [lia | exact Hrest | exact Hin].
      * cbn [orb] in Hc. apply (IH rest (cur +++ String c "") line); [lia| |exact Hrest|exact Hin].
        rewrite forall_chars_app, Hcur. cbn [PyStr.forall_chars]. now rewrite Hc.
Qed.

Lemma forall_chars_weaken (P Q : ascii -> bool) (s : string) :
  (forall c, P c = true -> Q c = true) ->
  PyStr.forall_chars P s = true -> PyStr.forall_chars Q s = true.
Proof.
  intros HPQ. induction s as [|c s IH]; cbn [PyStr.forall_chars]; [reflexivity|].
  intros Hall. apply andb_true_iff in Hall as [Hc Hall]. now rewrite (HPQ c Hc), IH.
Qed.

Lemma forall_chars_always (Q : ascii -> bool) (s : string) :
  (forall c, Q c = true) -> PyStr.forall_chars Q s = true.
Proof.
  intros HQ. induction s as [|c s IH]; cbn [PyStr.forall_chars]; [reflexivity|].
  now rewrite HQ, IH.
Qed.

Lemma nonblank_line_shape (p line : string) :
  In line (nonblank_lines p) ->
  PyStr.forall_chars unbroken line = true
  /\ PyStr.forall_chars PyStr.isspace line = false.
Proof.
  unfold nonblank_lines. rewrite filter_In, strip_nonempty, negb_true_iff.
  intros [Hin Hblank]. split; [|exact Hblank].
  apply (lines_keep unbroken (String.length p) p "" line (le_n _)); [reflexivity| |exact Hin].
  apply forall_chars_always. intros c. unfold unbroken. now destruct (PyStr.is_linebreak c).
Qed.

Lemma literal_keys_text (sp tg text line : string) :
  literal_keys sp tg text = literal_keys sp tg line -> text = line.
Proof. unfold literal_keys, tmux. now intros [= ->]. Qed.

Lemma in_paced_lines (sp tg : string) (delay : Z) (lines : list string) (text : string) (dir : option string) :
  In (Spawn (literal_keys sp tg text) dir) (paced_lines sp tg delay lines) -> In text lines.
Proof.
  unfold paced_lines. rewrite in_flat_map. intros [line [Hline Hin]].
  destruct Hin as [Heq|[Heq|[Heq|[]]]]; try discriminate Heq.
  inversion Heq. subst. exact Hline.
Qed.

Lemma in_firstn {A} (x : A) (k : nat) (l : list A) : In x (firstn k l) -> In x l.
Proof.
  intros Hin. rewrite <- (firstn_skipn k l). apply in_or_app. now left.
Qed.

(** X4.  Whatever the prompt, every text that the prompt loop injects
    into the pane is a single line: it holds no line boundary character,
    and it is not blank. *)
Theorem injected_text_is_one_line (H : Host) (args : Namespace) (sp tg p text : string)
        (dir : option string) (w : World) :
  prompt args = Some p ->
  forall evs,
    trace (snd (send_prompt H args sp tg w)) = trace w ++ evs ->
    In (Spawn (literal_keys sp tg text) dir) evs ->
    In text (PyStr.splitlines p)
    /\ PyStr.forall_chars unbroken text = true
    /\ PyStr.forall_chars PyStr.isspace text = false.
Proof.
  intros Hp evs Htr Hin.
  assert (Hrun : send_prompt H args sp tg w
                 = for_each (nonblank_lines p)
                            (send_line H sp tg (interactive_send_delay_ms args)) w).
  { unfold send_prompt. rewrite Hp. destruct p as [|c p]; reflexivity. }
  rewrite Hrun in Htr.
  destruct (for_each_line_prefix H sp tg (interactive_send_delay_ms args) (nonblank_lines p) w)
    as [k Hk].
  rewrite Hk in Htr. apply app_inv_head in Htr. subst evs.
  apply in_firstn, in_paced_lines in Hin.
  destruct (nonblank_line_shape p text Hin) as [Hone Hblank].
  split; [|now split]. unfold nonblank_lines in Hin. now apply filter_In in Hin as [Hin _].
Qed.

Lemma injected_text_is_one_line_witness :
  In "do thing" (PyStr.splitlines three_lines)
  /\ PyStr.forall_chars unbroken "do thing" = true
  /\ PyStr.forall_chars PyStr.isspace "do thing" = false.
Proof.
  apply (injected_text_is_one_line (posix_host full_path 0) paced_args
           "/tmp/s.sock" "cc:0.0" three_lines "do thing" None fresh eq_refl
           (paced_lines "/tmp/s.sock" "cc:0.0" 100 ["/init"; "do thing"; "/status"])).
  - vm_compute. reflexivity.
  - simpl. tauto.
Defined.

(** X5.  A prompt made of white space only (the empty prompt included)
    has no line to send: the prompt loop leaves the world as it is. *)
Theorem blank_prompt_sends_nothing (H : Host) (args : Namespace) (sp tg p : string) (w : World) :
  prompt args = Some p -> PyStr.forall_chars PyStr.isspace p = true ->
  nonblank_lines p = [] /\ send_prompt H args sp tg w = (Ok tt, w).
Proof.
  intros Hp Hall.
  assert (Hnone : nonblank_lines p = []).
  { unfold nonblank_lines.
    destruct (filter (fun ln => PyStr.nonempty (PyStr.strip ln)) (PyStr.splitlines p))
      as [|line rest] eqn:Hf; [reflexivity|].
    assert (Hin : In line (line :: rest)) by now left.
    rewrite <- Hf in Hin. apply filter_In in Hin as [Hin Hkeep].
    rewrite strip_nonempty, negb_true_iff in Hkeep.
    assert (Hline : PyStr.forall_chars PyStr.isspace line = true).
    { apply (lines_keep PyStr.isspace (String.length p) p "" line (le_n _));
        [reflexivity| |exact Hin].
      apply (forall_chars_weaken PyStr.isspace); [|exact Hall].
      intros c Hc. rewrite Hc. apply orb_true_r. }
    congruence. }
  split; [exact Hnone|].
  unfold send_prompt. rewrite Hp. destruct (truthy (Some p)); [|reflexivity].
  now rewrite Hnone.
Qed.

Lemma blank_prompt_sends_nothing_witness :
  nonblank_lines ("  " +++ PyStr.newline +++ " ") = []
  /\ send_prompt (posix_host full_path 0)
       (sample (Some ("  " +++ PyStr.newline +++ " ")) Interactive) "/tmp/s.sock" "cc:0.0" fresh
     = (Ok tt, fresh).
Proof.
  apply (blank_prompt_sends_nothing (posix_host full_path 0)
           (sample (Some ("  " +++ PyStr.newline +++ " ")) Interactive)
           "/tmp/s.sock" "cc:0.0" ("  " +++ PyStr.newline +++ " ") fresh);
    reflexivity.
Defined.

(** ** The poller at its edges *)

(** X6.  With a timeout of zero or less the poller gives up at once: it
    returns false without a single capture or sleep. *)
Theorem tmux_wait_for_no_time (H : Host) (sp tg needle : string) (timeout_s : Z) (w : World) :
  timeout_s <= 0 ->
  tmux_wait_for H sp tg needle timeout_s w = (Ok false, w).
Proof.
  intros Ht. unfold tmux_wait_for, bind, time_time, poll_budget.
  rewrite wait_loop_step.
  destruct (Z.ltb_spec (clock w) (clock w + 1000 * timeout_s)); [lia | reflexivity].
Qed.

Lemma tmux_wait_for_no_time_witness :
  tmux_wait_for slow_pane_host "/tmp/s.sock" "cc:0.0" "trust this folder" 0 fresh
  = (Ok false, fresh).
Proof.
  apply (tmux_wait_for_no_time slow_pane_host "/tmp/s.sock" "cc:0.0" "trust this folder" 0 fresh).
  lia.
Defined.

Lemma wait_loop_within (H : Host) (sp tg needle : string) (deadline limit : Z) :
  (forall tr, Z.of_N (elapsed (capture_at H tr sp tg)) <= limit) ->
  forall (fuel : nat) (w : World),
    clock (snd (wait_loop H fuel sp tg needle deadline w))
    <= Z.max (clock w) (deadline + limit + 500).
Proof.
  intros Hlimit. induction fuel as [|fuel IH]; intros w.
  - cbn [wait_loop ret snd]. lia.
  - rewrite wait_loop_step.
    pose proof (Hlimit (trace w)) as Hcap. unfold capture_at in Hcap.
    destruct (Z.ltb_spec (clock w) deadline) as [Hlt|Hge]; [|cbn [snd]; lia].
    destruct (capture_shows H (trace w) sp tg needle).
    + cbn [snd after_spawn clock]. lia.
    + specialize (IH (after_sleep (after_spawn H w (capture_argv sp tg 200) None) 500)).
      cbn [after_sleep after_spawn clock] in IH. lia.
Qed.

(** X7.  When no capture takes longer than [limit] milliseconds, the
    poller returns at most [limit + 500] milliseconds after its deadline
    (or at once, for a deadline already past): the last test of the clock
    lies before the deadline and is followed by at most one capture and
    one sleep. *)
Theorem tmux_wait_for_overrun (H : Host) (sp tg needle : string) (timeout_s limit : Z) (w : World) :
  (forall tr, Z.of_N (elapsed (capture_at H tr sp tg)) <= limit) ->
  clock (snd (tmux_wait_for H sp tg needle timeout_s w))
  <= Z.max (clock w) (clock w + 1000 * timeout_s + limit + 500).
Proof.
  intros Hlimit. unfold tmux_wait_for, bind, time_time.
  pose proof (wait_loop_within H sp tg needle (clock w + 1000 * timeout_s) limit Hlimit
                (poll_budget timeout_s) w) as Hin.
  destruct (wait_loop H (poll_budget timeout_s) sp tg needle (clock w + 1000 * timeout_s) w)
    as [[[b|]|e] w']; exact Hin.
Qed.

Lemma tmux_wait_for_overrun_witness :
  clock (snd (tmux_wait_for (posix_host full_path 0) "/tmp/s.sock" "cc:0.0" "x" 1 fresh))
  <= Z.max (clock fresh) (clock fresh + 1000 * 1 + 10 + 500).
Proof.
  apply (tmux_wait_for_overrun (posix_host full_path 0) "/tmp/s.sock" "cc:0.0" "x" 1 10 fresh).
  intros tr. simpl. lia.
Defined.

(** ** The steps of the interactive run one by one *)

Lemma bind_ok {A B} (c : M A) (k : A -> M B) (w w1 : World) (a : A) :
  c w = (Ok a, w1) -> bind c k w = k a w1.
Proof. intros Hc. unfold bind. now rewrite Hc. Qed.

Lemma bind_raise {A B} (c : M A) (k : A -> M B) (w w1 : World) (e : Exn) :
  c w = (Raise e, w1) -> bind c k w = (Raise e, w1).
Proof. intros Hc. unfold bind. now rewrite Hc. Qed.


Lemma check_call_fails (H : Host) (argv : list string) (w : World) :
  returncode (child H (trace w) argv None) <> 0 ->
  check_call H argv w
  = (Raise (CalledProcessError (returncode (child H (trace w) argv None)) argv),
     after_spawn H w argv None).
Proof.
  intros Hrc. unfold check_call, bind, subprocess_run.
  apply Z.eqb_neq in Hrc. now rewrite Hrc.
Qed.

Lemma acknowledge_runs (H : Host) (sp tg : string) (w : World) :
  exists n b w',
    acknowledge_trust H sp tg w = (Ok tt, w')
    /\ trace w' = trace w ++ poll_events n b sp tg ++ trust_reply b sp tg
    /\ (n <= 40)%nat
    /\ (forall i, (i < n)%nat ->
          capture_shows H (trace w ++ idle_rounds i sp tg) sp tg "trust this folder" = false)
    /\ (b = true ->
        capture_shows H (trace w ++ idle_rounds n sp tg) sp tg "trust this folder" = true)
    /\ (b = false -> clock w + 20000 <= clock w').
Proof.
  destruct (wait_loop_runs H sp tg "trust this folder" (clock w + 1000 * 20)
              (Z.to_nat (2 * 20)) w)
    as [n [b [w1 [Hrun [Htr [Hidle [Hhit [Hmiss [Hn Hclk]]]]]]]]]; [lia|].
  assert (Hwait : tmux_wait_for H sp tg "trust this folder" 20 w = (Ok b, w1)).
  { unfold tmux_wait_for, bind, time_time, poll_budget. now rewrite Hrun. }
  unfold acknowledge_trust. rewrite (bind_ok _ _ _ _ _ Hwait).
  destruct b.
  - eexists n, true, _. split; [reflexivity|]. cbn [trace after_sleep].
    split; [|split; [|split; [|split]]].
    + unfold bind, subprocess_run, time_sleep, emit. cbn. rewrite Htr.
      now rewrite <- !app_assoc.
    + exact Hn.
    + exact Hidle.
    + exact Hhit.
    + discriminate.
  - exists n, false, w1. split; [reflexivity|].
    split; [|split; [|split; [|split]]].
    + rewrite Htr. unfold trust_reply. now rewrite app_nil_r.
    + exact Hn.
    + exact Hidle.
    + exact Hhit.
    + intros _. specialize (Hmiss eq_refl). lia.
Qed.

(** X8.  The trust step never fails.  It polls for [trust this folder]
    for at most 40 idle rounds, and it presses [Enter] once and pauses one
    second exactly when a capture succeeded and showed the question; when
    none did, it has waited the full 20 seconds and sends nothing. *)
Theorem trust_step_replies (H : Host) (sp tg : string) (w : World) :
  exists n b w',
    acknowledge_trust H sp tg w = (Ok tt, w')
    /\ trace w' = trace w ++ poll_events n b sp tg ++ trust_reply b sp tg
    /\ (n <= 40)%nat
    /\ (forall i, (i < n)%nat ->
          returncode (capture_at H (trace w ++ idle_rounds i sp tg) sp tg) <> 0
          \/ PyStr.contains "trust this folder"
               (output (capture_at H (trace w ++ idle_rounds i sp tg) sp tg)) = false)
    /\ (b = true ->
        returncode (capture_at H (trace w ++ idle_rounds n sp tg) sp tg) = 0
        /\ PyStr.contains "trust this folder"
             (output (capture_at H (trace w ++ idle_rounds n sp tg) sp tg)) = true)
    /\ (b = false -> clock w + 20000 <= clock w').
Proof.
  destruct (acknowledge_runs H sp tg w)
    as [n [b [w' [Hrun [Htr [Hn [Hidle [Hhit Hmiss]]]]]]]].
  exists n, b, w'. split; [exact Hrun|]. split; [exact Htr|]. split; [exact Hn|].
  split; [|split; [|exact Hmiss]].
  - intros i Hi. apply capture_shows_false. now apply Hidle.
  - intros Hb. specialize (Hhit Hb). unfold capture_shows in Hhit.
    apply andb_true_iff in Hhit as [Hrc Hin]. split; [now apply Z.eqb_eq | exact Hin].
Qed.

(** A pane that asks the trust question at the third capture. *)
Example trust_question_answered :
  acknowledge_trust slow_pane_host "/tmp/s.sock" "cc:0.0" fresh
  = (Ok tt,
     {| clock := 2040;
        trace := poll_events 2 true "/tmp/s.sock" "cc:0.0"
                 ++ trust_reply true "/tmp/s.sock" "cc:0.0" |}).
Proof. vm_compute. reflexivity. Qed.




(** ** Fatal setup errors *)

Lemma session_refused (H : Host) (args : Namespace) (w : World) :
  mkdir_succeeds H (trace w) (socket_dir_of H args) = true ->
  returncode (child H (trace w ++ [Mkdir (socket_dir_of H args);
                                   Spawn (kill_session_argv H args) None])
                    (new_session_argv H args) None) <> 0 ->
  exists w3,
    trace w3 = trace w ++ session_setup H args
    /\ drive_session H args w
       = (Raise (CalledProcessError
                   (returncode (child H (trace w ++ [Mkdir (socket_dir_of H args);
                                                     Spawn (kill_session_argv H args) None])
                                      (new_session_argv H args) None))
                   (new_session_argv H args)), w3).
Proof.
  intros Hmk Hnew.
  set (w1 := {| clock := clock w; trace := trace w ++ [Mkdir (socket_dir_of H args)] |}).
  set (w2 := after_spawn H w1 (kill_session_argv H args) None).
  assert (Htr : trace w2 = trace w ++ [Mkdir (socket_dir_of H args);
                                        Spawn (kill_session_argv H args) None]).
  { unfold w2, w1. simpl. now rewrite <- app_assoc. }
  exists (after_spawn H w2 (new_session_argv H args) None). split.
  - unfold session_setup. simpl. now rewrite <- !app_assoc.
  - unfold drive_session. cbv zeta.
    fold (socket_path_of H args). fold (target_of args).
    fold (kill_session_argv H args). fold (new_session_argv H args).
    unfold bind at 1. unfold path_mkdir. rewrite Hmk. fold w1.
    unfold bind at 1. unfold subprocess_run at 1.
    fold (after_spawn H w1 (kill_session_argv H args) None). fold w2.
    rewrite <- Htr in Hnew |- *.
    now rewrite (bind_raise _ _ _ _ _ (check_call_fails H _ w2 Hnew)).
Qed.

(** X10.  Setup errors of the interactive run are fatal and stop it where
    they occur.  If the socket directory cannot be made, nothing else
    happens; if [new-session] fails, nothing is typed into any pane; if the
    launch line cannot be injected, it is never submitted.  In each case
    the error is raised, so no exit code is returned. *)
Theorem setup_errors_are_fatal (H : Host) (args : Namespace) (w : World) :
  os_name H <> "nt" -> truthy (which H "tmux") = true ->
  let dir := socket_dir_of H args in
  let launch := literal_keys (socket_path_of H args) (target_of args) (launch_line H args) in
  let new_code := returncode (child H (trace w ++ [Mkdir dir; Spawn (kill_session_argv H args) None])
                                    (new_session_argv H args) None) in
  let launch_code := returncode (child H (trace w ++ session_setup H args) launch None) in
  (mkdir_succeeds H (trace w) dir = false ->
   run_interactive H args w = (Raise (OSError dir), w))
  /\ (mkdir_succeeds H (trace w) dir = true -> new_code <> 0 ->
      exists w',
        run_interactive H args w
        = (Raise (CalledProcessError new_code (new_session_argv H args)), w')
        /\ trace w' = trace w ++ session_setup H args)
  /\ (mkdir_succeeds H (trace w) dir = true -> new_code = 0 -> launch_code <> 0 ->
      exists w',
        run_interactive H args w = (Raise (CalledProcessError launch_code launch), w')
        /\ trace w' = trace w ++ session_setup H args ++ [Spawn launch None]).
Proof.
  intros Hos Htmux. cbv zeta. rewrite (run_interactive_checked H args Hos Htmux).
  split; [|split].
  - intros Hmk. unfold drive_session. cbv zeta. unfold bind at 1. unfold path_mkdir.
    now rewrite Hmk.
  - intros Hmk Hnew. destruct (session_refused H args w Hmk Hnew) as [w3 [Htr Hrun]].
    now exists w3.
  - intros Hmk Hnew Hlaunch. destruct (session_created H args w Hmk Hnew) as [w3 [Htr Hrun]].
    rewrite Hrun. rewrite <- Htr in Hlaunch |- *.
    rewrite (bind_raise _ _ _ _ _ (check_call_fails H _ w3 Hlaunch)).
    eexists. split; [reflexivity|]. cbn [after_spawn trace]. rewrite Htr.
    now rewrite <- app_assoc.
Qed.

Lemma setup_errors_are_fatal_witness :
  run_interactive readonly_host paced_args fresh = (Raise (OSError "/run/socks"), fresh)
  /\ exists w',
       run_interactive broken_tmux_host paced_args fresh
       = (Raise (CalledProcessError 1 (new_session_argv broken_tmux_host paced_args)), w')
       /\ trace w' = trace fresh ++ session_setup broken_tmux_host paced_args.
Proof.
  split.
  - refine (proj1 (setup_errors_are_fatal readonly_host paced_args fresh _ _) _);
      [discriminate | reflexivity | reflexivity].
  - refine (proj1 (proj2 (setup_errors_are_fatal broken_tmux_host paced_args fresh _ _)) _ _);
      [discriminate | reflexivity | reflexivity | discriminate].
Defined.

(** ** The whole of a successful interactive run *)





(** ** [main] on the headless path *)

(** X12.  Whenever the interactive mode is not selected and the
    executable resolves, all [main] does is spawn one process in the
    configured working directory and return the exit status of that
    process: nothing is printed, no directory is made and tmux is not
    touched, even for a prompt full of slash commands under an explicit
    [headless] mode.  The process is the built vector itself on Windows or
    without [script], and [script] wrapped around it otherwise, in which
    case the status returned is the one of [script]. *)
Theorem headless_main_one_process (H : Host) (args : Namespace) (w : World) :
  target_resolves H args = true ->
  mode args = Headless \/ selects_interactive args = false ->
  let vector := build_cmd (set_extra args (strip_separator (extra args))) in
  main H args w
  = (Ok (returncode (child H (trace w) (headless_argv H vector) (cwd args))),
     after_spawn H w (headless_argv H vector) (cwd args))
  /\ (wraps_in_script H = false -> headless_argv H vector = vector)
  /\ (forall script_bin,
        os_name H <> "nt" -> which H "script" = Some script_bin -> script_bin <> "" ->
        headless_argv H vector = script_argv script_bin vector).
Proof.
  intros Hres Hmode. cbv zeta.
  assert (Hsel : selects_interactive args = false).
  { destruct Hmode as [Hm|Hs]; [|exact Hs].
    unfold selects_interactive, resolve_mode. now rewrite Hm. }
  split; [|split].
  - rewrite main_dispatch, Hsel. unfold target_resolves in Hres.
    destruct (path_exists H (claude_bin args)), (truthy (which H (claude_bin args)));
      try discriminate Hres; apply run_headless_eq.
  - apply headless_argv_direct.
  - intros sb. apply headless_argv_wrapped.
Qed.

Lemma headless_main_one_process_witness :
  main script_host (sample (Some "/init") Headless) fresh
  = (Ok 0,
     {| clock := 10;
        trace := [Spawn ["/usr/bin/script"; "-q"; "-c"; "claude -p /init"; "/dev/null"] None] |})
  /\ main (windows_host full_path 3) (sample (Some "/init") Headless) fresh
     = (Ok 3, {| clock := 10; trace := [Spawn ["claude"; "-p"; "/init"] None] |}).
Proof.
  split.
  - apply (proj1 (headless_main_one_process script_host (sample (Some "/init") Headless) fresh
                    eq_refl (or_introl eq_refl))).
  - apply (proj1 (headless_main_one_process (windows_host full_path 3)
                    (sample (Some "/init") Headless) fresh eq_refl (or_introl eq_refl))).
Defined.

(** X13.  Of the pass-through words only one leading [--] is dropped:
    whatever follows it, a further [--] included, reaches the runner as it
    was given and ends the vector of the headless command. *)
Theorem separator_is_dropped_once (H : Host) (args : Namespace) (e : list string) (w : World) :
  target_resolves H args = true ->
  main H (set_extra args ("--" :: e)) w
  = (if selects_interactive args
     then run_interactive H (set_extra args e) w
     else run_headless H (build_cmd (set_extra args e)) (cwd args) w)
  /\ build_cmd (set_extra args e) = build_cmd (set_extra args []) ++ e.
Proof.
  intros Hres. split.
  - rewrite main_dispatch. unfold target_resolves in Hres.
    change (claude_bin (set_extra args ("--" :: e))) with (claude_bin args).
    change (selects_interactive (set_extra args ("--" :: e))) with (selects_interactive args).
    destruct (path_exists H (claude_bin args)), (truthy (which H (claude_bin args)));
      try discriminate Hres; reflexivity.
  - rewrite !build_cmd_groups. unfold after_resume, before_resume. cbn [extra set_extra].
    change (prompt (set_extra args e)) with (prompt args).
    change (prompt (set_extra args [])) with (prompt args).
    rewrite app_nil_r. now rewrite <- !app_assoc.
Qed.

Lemma separator_is_dropped_once_witness :
  main (posix_host full_path 0) (set_extra continue_and_resume ["--"; "--"; "--verbose"]) fresh
  = run_headless (posix_host full_path 0)
      ["claude"; "--continue"; "--resume"; "abc"; "-p"; "go on"; "--"; "--verbose"]
      (Some "/srv/repo") fresh.
Proof.
  apply (proj1 (separator_is_dropped_once (posix_host full_path 0) continue_and_resume
                  ["--"; "--verbose"] fresh eq_refl)).
Defined.

(** X14.  With the continuation flag and a resume token both set, the
    builder forwards both without choosing: [--continue] is immediately
    followed by [--resume] and the token. *)
Theorem continue_and_resume_coexist (args : Namespace) (token : string) :
  continue_latest args = true -> resume args = Some token -> token <> "" ->
  exists front back,
    build_cmd args = front ++ ["--continue"; "--resume"; token] ++ back
    /\ back = prompt_group (prompt args) ++ extra args.
Proof.
  intros Hc Hr Hne. rewrite build_cmd_groups. unfold before_resume, after_resume.
  rewrite Hc, Hr. apply nonempty_iff in Hne.
  replace (opt_group "--resume" (Some token)) with ["--resume"; token]
    by (unfold opt_group; now rewrite Hne).
  cbn [continue_group].
  exists ([claude_bin args]
          ++ opt_group "--permission-mode" (permission_mode args)
          ++ opt_group "--allowedTools" (allowed_tools args)
          ++ opt_group "--output-format" (output_format args)
          ++ opt_group "--json-schema" (json_schema args)
          ++ opt_group "--append-system-prompt" (append_system_prompt args)
          ++ opt_group "--system-prompt" (system_prompt args)),
         (prompt_group (prompt args) ++ extra args).
  split; [|reflexivity]. rewrite <- !app_assoc. reflexivity.
Qed.

Lemma continue_and_resume_coexist_witness :
  exists front back,
    build_cmd continue_and_resume = front ++ ["--continue"; "--resume"; "abc"] ++ back
    /\ back = prompt_group (prompt continue_and_resume) ++ extra continue_and_resume.
Proof.
  apply (continue_and_resume_coexist continue_and_resume "abc");
    [reflexivity | reflexivity | discriminate].
Defined.

(** ** Defaults taken from the environment *)

Lemma or_else_nonempty (x : option string) (y : string) :
  PyStr.nonempty y = true -> PyStr.nonempty (or_else x y) = true.
Proof.
  intros Hy. unfold or_else. destruct x as [s|]; [|exact Hy].
  destruct (PyStr.nonempty s) eqn:Hs; [exact Hs | exact Hy].
Qed.

(** X15.  The default executable is never the empty string: it is the
    value of [CLAUDE_CODE_BIN] when that is set and not empty, else what
    the search path gives for [claude], else the fixed location; an empty
    override counts as none. *)
Theorem default_claude_bin_resolves (H : Host) :
  PyStr.nonempty (default_claude_bin H) = true
  /\ (forall v, getenv H "CLAUDE_CODE_BIN" = Some v -> v <> "" -> default_claude_bin H = v)
  /\ (truthy (getenv H "CLAUDE_CODE_BIN") = false ->
      (forall p, which H "claude" = Some p -> p <> "" -> default_claude_bin H = p)
      /\ (truthy (which H "claude") = false ->
          default_claude_bin H = "/home/ubuntu/.local/bin/claude")).
Proof.
  unfold default_claude_bin. split; [|split].
  - apply or_else_nonempty, or_else_nonempty. reflexivity.
  - intros v Hv Hne. rewrite Hv. unfold or_else. apply nonempty_iff in Hne. now rewrite Hne.
  - intros Henv.
    assert (Hskip : forall y, or_else (getenv H "CLAUDE_CODE_BIN") y = y).
    { intros y. unfold or_else, truthy in *. destruct (getenv H "CLAUDE_CODE_BIN") as [s|];
        [now rewrite Henv | reflexivity]. }
    rewrite Hskip. split.
    + intros p Hp Hne. rewrite Hp. unfold or_else. apply nonempty_iff in Hne. now rewrite Hne.
    + intros Hw. unfold or_else, truthy in *. destruct (which H "claude") as [s|];
        [now rewrite Hw | reflexivity].
Qed.

Lemma default_claude_bin_resolves_witness :
  default_claude_bin (posix_host full_path 0) = "/usr/bin/claude"
  /\ default_claude_bin (posix_host [] 0) = "/home/ubuntu/.local/bin/claude".
Proof.
  pose proof (default_claude_bin_resolves (posix_host full_path 0)) as [_ [_ Hfound]].
  pose proof (default_claude_bin_resolves (posix_host [] 0)) as [_ [_ Hnone]].
  split.
  - apply (proj1 (Hfound eq_refl) "/usr/bin/claude"); [reflexivity | discriminate].
  - apply (proj2 (Hnone eq_refl)). reflexivity.
Defined.

Lemma append_nonempty_r (s t : string) :
  PyStr.nonempty t = true -> PyStr.nonempty (s +++ t) = true.
Proof. intros Ht. destruct s; [exact Ht | reflexivity]. Qed.

(** X16.  The socket directory is never the empty string.  A non-empty
    [--tmux-socket-dir] wins; else a non-empty [CLAWDBOT_TMUX_SOCKET_DIR];
    else [clawdbot-tmux-sockets] under [TMPDIR], where a [TMPDIR] that is
    set counts even when empty and only an unset one gives [/tmp]. *)
Theorem socket_dir_precedence (H : Host) (args : Namespace) :
  PyStr.nonempty (socket_dir_of H args) = true
  /\ (forall d, tmux_socket_dir args = Some d -> d <> "" -> socket_dir_of H args = d)
  /\ (truthy (tmux_socket_dir args) = false ->
      (forall d, getenv H "CLAWDBOT_TMUX_SOCKET_DIR" = Some d -> d <> "" ->
                 socket_dir_of H args = d)
      /\ (truthy (getenv H "CLAWDBOT_TMUX_SOCKET_DIR") = false ->
          (forall t, getenv H "TMPDIR" = Some t ->
                     socket_dir_of H args = t +++ "/clawdbot-tmux-sockets")
          /\ (getenv H "TMPDIR" = None ->
              socket_dir_of H args = "/tmp/clawdbot-tmux-sockets"))).
Proof.
  unfold socket_dir_of. split; [|split].
  - apply or_else_nonempty, or_else_nonempty, append_nonempty_r. reflexivity.
  - intros d Hd Hne. rewrite Hd. unfold or_else. apply nonempty_iff in Hne. now rewrite Hne.
  - intros Hcfg.
    assert (Hskip : forall y, or_else (tmux_socket_dir args) y = y).
    { intros y. unfold or_else, truthy in *. destruct (tmux_socket_dir args) as [s|];
        [now rewrite Hcfg | reflexivity]. }
    rewrite Hskip. split.
    + intros d Hd Hne. rewrite Hd. unfold or_else. apply nonempty_iff in Hne. now rewrite Hne.
    + intros Henv.
      assert (Hskip' : forall y, or_else (getenv H "CLAWDBOT_TMUX_SOCKET_DIR") y = y).
      { intros y. unfold or_else, truthy in *.
        destruct (getenv H "CLAWDBOT_TMUX_SOCKET_DIR") as [s|];
          [now rewrite Henv | reflexivity]. }
      rewrite Hskip'. split.
      * intros t Ht. now rewrite Ht.
      * intros Ht. now rewrite Ht.
Qed.

Lemma socket_dir_precedence_witness :
  socket_dir_of empty_tmpdir_host (sample None Interactive) = "/clawdbot-tmux-sockets"
  /\ socket_dir_of empty_tmpdir_host paced_args = "/run/socks".
Proof.
  pose proof (socket_dir_precedence empty_tmpdir_host (sample None Interactive))
    as [_ [_ Hdefault]].
  pose proof (socket_dir_precedence empty_tmpdir_host paced_args) as [_ [Hgiven _]].
  split.
  - apply (proj1 (proj2 (Hdefault eq_refl) eq_refl) ""). reflexivity.
  - apply Hgiven; [reflexivity | discriminate].
Defined.
